(** * Stadium Finder: the facility-search core of [Stadium-Finder.py]

    The development follows the script: the reference lists, the attribute
    filters of [apply_selection_filters] (on a store of data frames, since the
    function works on frame objects), the distance computation of
    [haversine_vectorized] on binary64 numbers, and the radius cut, sort and
    truncation of the main display logic.

    What the script delegates to pandas, numpy and [re] without fixing it in
    its own text (the regular expression engine beyond literal patterns, the
    rendering of a missing cell by [astype(str)], the elementary functions,
    the sorting algorithm behind [kind='quicksort']) is a field of [Runtime];
    every statement is made for an arbitrary runtime. *)

From Stdlib Require Import List String Ascii ZArith Floats Bool Lia.
From Stdlib Require Import Permutation Sorted.
Import ListNotations.

(** ** Text *)

Module Text.

Local Open Scope string_scope.

(** [pat] is an initial segment of [s]. *)
Fixpoint starts_with (pat s : string) : bool :=
  match pat, s with
  | EmptyString, _ => true
  | String _ _, EmptyString => false
  | String c p, String d t => Ascii.eqb c d && starts_with p t
  end.

(** Python's [pat in s]: [pat] occurs in [s] at some offset. *)
Fixpoint str_find (pat s : string) : bool :=
  starts_with pat s ||
  match s with
  | EmptyString => false
  | String _ t => str_find pat t
  end.

(** The declarative reading of "contains as a substring". *)
Definition Substring (pat s : string) : Prop :=
  exists pre post, s = pre ++ pat ++ post.

(** [s.split(sep)] for a one-character separator. *)
Fixpoint split_on (sep : ascii) (s : string) : list string :=
  match s with
  | EmptyString => [EmptyString]
  | String c t =>
      if Ascii.eqb c sep then EmptyString :: split_on sep t
      else match split_on sep t with
           | h :: r => String c h :: r
           | [] => [String c EmptyString]
           end
  end.

End Text.

(** ** Regular expressions, as far as the transport filter needs them

    [Series.str.contains(pat)] is called with its default [regex=True]: the
    criterion is compiled by [re] and searched in each cell.  A pattern
    without special characters is a literal; [|] separates alternatives.
    Patterns using any other special character are left to the runtime. *)

Module Re.

Local Open Scope char_scope.

(** The special characters of Python's [re] syntax. *)
Definition special : list ascii :=
  ["."; "^"; "$"; "*"; "+"; "?"; "{"; "}"; "["; "]"; "\"; "|"; "("; ")"].

Definition is_special (c : ascii) : bool := existsb (Ascii.eqb c) special.

(** No special character at all: the pattern denotes itself. *)
Definition literal (pat : string) : bool :=
  negb (existsb is_special (list_ascii_of_string pat)).

(** Special characters other than the alternation bar. *)
Definition beyond_alternation (pat : string) : bool :=
  existsb (fun c => is_special c && negb (Ascii.eqb c "|"))
          (list_ascii_of_string pat).

(** [re.search] for an alternation of literals. *)
Definition search_alternatives (pat s : string) : bool :=
  existsb (fun alt => Text.str_find alt s) (Text.split_on "|" pat).

End Re.

(** ** The runtime under the script *)

Record Runtime := {
  (** [re.compile] on a pattern with special characters other than [|]:
      [None] when it raises [re.error], else the compiled search. *)
  re_beyond : string -> option (string -> bool);
  (** [astype(str)] on a missing cell: the text [nan] (pandas up to 2.x) when
      [true], still missing (pandas 3) when [false]. *)
  astype_str_na : bool;
  (** numpy's elementary functions on binary64. *)
  np_sin : float -> float;
  np_cos : float -> float;
  np_arctan2 : float -> float -> float;
  (** [argsort] of a key array with [kind='quicksort'], the default of
      [DataFrame.sort_values]: the positions of the keys in sorted order. *)
  argsort_quicksort : list float -> list nat
}.

(** ** Data model *)

(** A cell of a text column read from the spreadsheet: empty or a text. *)
Inductive cell := NA | Text (s : string).

Definition cell_eqb (c : cell) (v : string) : bool :=
  match c with
  | NA => false
  | Text s => String.eqb s v
  end.

(** One row of [ComplexesFoot.xlsx] after [load_data], with the columns the
    script reads. *)
Record Row := {
  inst_nom : cell;
  inst_trans_type : cell;
  equip_type_name : cell;
  equip_nature : cell;
  equip_sol : cell;
  aps_name : cell;
  latitude : float;
  longitude : float
}.

Definition DataFrame := list Row.

(** The [surface] argument: the text "No preference" or the multiselect's
    list of values. *)
Inductive surface_arg :=
| SurfaceStr (s : string)
| SurfaceList (l : list string).

Local Open Scope string_scope.
Local Open Scope list_scope.

Definition no_preference : string := "No preference".

(** The transport modes of the sidebar. *)
Definition list_trans : list string :=
  ["No preference"; "Autre"; "Avion"; "Bateau"; "Bus"; "Métro";
   "Pas de desserte"; "Train"; "Tramway"].


(** ** Frame objects and the store

    A data frame is an object; a variable of the script holds a reference to
    it.  [copy] and boolean indexing build new objects, rebinding a variable
    changes no object.  [re.compile] may raise. *)

Definition ref := nat.
Definition Store := list DataFrame.

Inductive exn := re_error | dangling_ref.

Inductive result (A : Type) :=
| Ok (a : A)
| Raise (e : exn).
Arguments Ok {A} a.
Arguments Raise {A} e.

Definition Py (A : Type) : Type := Store -> result A * Store.

Definition ret {A} (a : A) : Py A := fun st => (Ok a, st).

Definition raise {A} (e : exn) : Py A := fun st => (Raise e, st).

Definition bind {A B} (m : Py A) (k : A -> Py B) : Py B :=
  fun st =>
    match m st with
    | (Ok a, st') => k a st'
    | (Raise e, st') => (Raise e, st')
    end.

Notation "x <- m ;; k" := (bind m (fun x => k))
  (at level 61, m at next level, right associativity).

(** The frame a reference points to. *)
Definition deref (r : ref) : Py DataFrame :=
  fun st =>
    match nth_error st r with
    | Some df => (Ok df, st)
    | None => (Raise dangling_ref, st)
    end.

(** A new frame object. *)
Definition new_frame (df : DataFrame) : Py ref :=
  fun st => (Ok (List.length st), st ++ [df]).

(** A loop over a list that rebinds one variable. *)
Fixpoint for_each {A B} (items : list A) (body : A -> B -> Py B) (x : B)
  : Py B :=
  match items with
  | [] => ret x
  | i :: rest => y <- body i x ;; for_each rest body y
  end.

(** *** pandas operations used by the filters *)

(** [df.copy()]. *)
Definition df_copy (r : ref) : Py ref :=
  df <- deref r ;; new_frame df.

(** [df[col]]: the cells of one column. *)
Definition column (col : Row -> cell) (r : ref) : Py (list cell) :=
  df <- deref r ;; ret (map col df).

(** The rows at which a boolean mask holds. *)
Fixpoint select_rows (df : DataFrame) (mask : list bool) : DataFrame :=
  match df, mask with
  | row :: df', b :: mask' =>
      if b then row :: select_rows df' mask' else select_rows df' mask'
  | _, _ => []
  end.

(** [df[mask]]. *)
Definition getitem_mask (r : ref) (mask : list bool) : Py ref :=
  df <- deref r ;; new_frame (select_rows df mask).

(** [series.astype(str)] on one cell. *)
Definition astype_str (rt : Runtime) (c : cell) : cell :=
  match c with
  | NA => if astype_str_na rt then Text "nan" else NA
  | Text s => Text s
  end.

(** [re.compile(pat)], as a search function. *)
Definition re_compile (rt : Runtime) (pat : string) : option (string -> bool) :=
  if Re.beyond_alternation pat then re_beyond rt pat
  else Some (Re.search_alternatives pat).

(** [series.str.contains(pat, na=na)]. *)
Definition str_contains (rt : Runtime) (pat : string) (na : bool)
  (cells : list cell) : Py (list bool) :=
  match re_compile rt pat with
  | None => raise re_error
  | Some search =>
      ret (map (fun c => match c with NA => na | Text s => search s end) cells)
  end.

(** [series == value]. *)
Definition series_eq (value : string) (cells : list cell) : list bool :=
  map (fun c => cell_eqb c value) cells.

(** [series.isin(values)]. *)
Definition isin (values : list string) (cells : list cell) : list bool :=
  map (fun c => existsb (cell_eqb c) values) cells.

(** *** [apply_selection_filters] *)

Definition surface_ne (surface : surface_arg) (v : string) : bool :=
  match surface with
  | SurfaceStr s => negb (String.eqb s v)
  | SurfaceList _ => true
  end.

Definition isinstance_list (surface : surface_arg) : bool :=
  match surface with
  | SurfaceStr _ => false
  | SurfaceList _ => true
  end.

Definition len (surface : surface_arg) : nat :=
  match surface with
  | SurfaceStr s => String.length s
  | SurfaceList l => List.length l
  end.

Definition surface_values (surface : surface_arg) : list string :=
  match surface with
  | SurfaceStr _ => []
  | SurfaceList l => l
  end.

Definition apply_selection_filters (rt : Runtime) (dataset_source : ref)
  (transport equip_type nature : string) (surface : surface_arg)
  (activity : string) : Py ref :=
  dataset_filtered <- df_copy dataset_source ;;
  (* 1. Transport Filter *)
  dataset_filtered <-
    (if negb (String.eqb transport no_preference) then
       cells <- column inst_trans_type dataset_filtered ;;
       mask <- str_contains rt transport false (map (astype_str rt) cells) ;;
       getitem_mask dataset_filtered mask
     else ret dataset_filtered) ;;
  (* 2. Standard Dropdown Filters *)
  let filters :=
    [(equip_type_name, equip_type);
     (equip_nature, nature);
     (aps_name, activity)] in
  dataset_filtered <-
    for_each filters
      (fun '(col, value) dataset_filtered =>
         if negb (String.eqb value no_preference) then
           cells <- column col dataset_filtered ;;
           getitem_mask dataset_filtered (series_eq value cells)
         else ret dataset_filtered)
      dataset_filtered ;;
  (* 3. Surface Filter *)
  dataset_filtered <-
    (if surface_ne surface no_preference && isinstance_list surface
        && (0 <? len surface)%nat then
       cells <- column equip_sol dataset_filtered ;;
       getitem_mask dataset_filtered (isin (surface_values surface) cells)
     else ret dataset_filtered) ;;
  ret dataset_filtered.

(** The value of a call on a frame: the rows of the frame it returns. *)
Definition filtered (rt : Runtime) (df : DataFrame)
  (transport equip_type nature : string) (surface : surface_arg)
  (activity : string) : result DataFrame :=
  match apply_selection_filters rt 0 transport equip_type nature surface
          activity [df] with
  | (Ok r, st) =>
      match nth_error st r with
      | Some out => Ok out
      | None => Raise dangling_ref
      end
  | (Raise e, _) => Raise e
  end.

(** ** Distances *)

Local Open Scope float_scope.

(** [math.pi] as a binary64 number. *)
Definition pi : float := 0x1.921fb54442d18p+1.

(** [math.radians] and [np.radians]: one multiplication by [pi / 180]. *)
Definition radians (x : float) : float := x * (pi / 180).

(** [x ** 2] on a float array is numpy's square, one multiplication. *)
Definition square (x : float) : float := x * x.

(** Element-wise combination of the three arrays of a call. *)
Fixpoint zip3 {A B C D} (f : A -> B -> C -> D)
  (xs : list A) (ys : list B) (zs : list C) : list D :=
  match xs, ys, zs with
  | x :: xs', y :: ys', z :: zs' => f x y z :: zip3 f xs' ys' zs'
  | _, _, _ => []
  end.

Definition haversine_vectorized (rt : Runtime) (lat lon : float)
  (latitudes longitudes : list float) : list float :=
  let R := 6371.0 in
  let lat := radians lat in
  let lon := radians lon in
  let latitudes := map radians latitudes in
  let longitudes := map radians longitudes in
  let dlat := map (fun x => x - lat) latitudes in
  let dlon := map (fun x => x - lon) longitudes in
  let a :=
    zip3 (fun dlat_i latitude_i dlon_i =>
            square (np_sin rt (dlat_i / 2))
            + np_cos rt lat * np_cos rt latitude_i
              * square (np_sin rt (dlon_i / 2)))
         dlat latitudes dlon in
  let c := map (fun a_i => 2 * np_arctan2 rt (sqrt a_i) (sqrt (1 - a_i))) a in
  map (fun c_i => R * c_i) c.

(** ** Ranking *)

(** A row of the frame after [assign(distance_km=distances)]. *)
Record Ranked := {
  facility : Row;
  distance_km : float
}.

(** [df.assign(distance_km=distances)]. *)
Fixpoint assign_distance_km (df : DataFrame) (distances : list float)
  : list Ranked :=
  match df, distances with
  | row :: df', d :: distances' =>
      {| facility := row; distance_km := d |}
      :: assign_distance_km df' distances'
  | _, _ => []
  end.

(** [.query("distance_km <= @radius")]. *)
Definition query_within (radius : float) (rows : list Ranked) : list Ranked :=
  filter (fun r => distance_km r <=? radius) rows.

(** Positional selection; a position outside the array raises. *)
Fixpoint take {A} (positions : list nat) (xs : list A) : option (list A) :=
  match positions with
  | [] => Some []
  | i :: rest =>
      match nth_error xs i, take rest xs with
      | Some x, Some out => Some (x :: out)
      | _, _ => None
      end
  end.

(** The positions at which a mask holds ([idx[mask]], [np.nonzero]). *)
Fixpoint positions_where (mask : list bool) (from : nat) : list nat :=
  match mask with
  | [] => []
  | b :: rest =>
      if b then from :: positions_where rest (S from)
      else positions_where rest (S from)
  end.

(** pandas' [nargsort] with the defaults of [sort_values]: the keys that are
    numbers are sorted by [argsort], the others follow in their order. *)
Definition nargsort (rt : Runtime) (items : list float) : option (list nat) :=
  let mask := map is_nan items in
  let non_nans := filter (fun x => negb (is_nan x)) items in
  let non_nan_idx := positions_where (map negb mask) 0 in
  let nan_idx := positions_where mask 0 in
  match take (argsort_quicksort rt non_nans) non_nan_idx with
  | Some indexer => Some (indexer ++ nan_idx)
  | None => None
  end.

(** [.sort_values("distance_km")]. *)
Definition sort_values (rt : Runtime) (rows : list Ranked)
  : option (list Ranked) :=
  match nargsort rt (map distance_km rows) with
  | Some indexer => take indexer rows
  | None => None
  end.

(** [.head(n)], that is [iloc[:n]]: a negative [n] drops from the end. *)
Definition head {A} (n : Z) (xs : list A) : list A :=
  if (n <? 0)%Z then firstn (List.length xs - Z.to_nat (- n)) xs
  else firstn (Z.to_nat n) xs.

(** [df.empty]. *)
Definition empty {A} (xs : list A) : bool :=
  match xs with
  | [] => true
  | _ :: _ => false
  end.

(** The [results] of the main display logic, from the filtered frame. *)
Definition results (rt : Runtime) (lat lon : float) (df_filtered : DataFrame)
  (radius : float) (max_res : Z) : option (list Ranked) :=
  let distances :=
    haversine_vectorized rt lat lon
      (map latitude df_filtered) (map longitude df_filtered) in
  match sort_values rt
          (query_within radius (assign_distance_km df_filtered distances)) with
  | Some sorted => Some (head max_res sorted)
  | None => None
  end.

(** ** Search *)

Inductive reason := no_criteria_match | out_of_radius.

(** What a search shows: one of the two "no stadium" notices, or the found
    rows. *)
Inductive outcome :=
| NoMatch (why : reason)
| Found (rows : list Ranked).

(** A position raised by the sort is an [IndexError]. *)
Inductive failure := FilterRaised (e : exn) | IndexError.

(** The main display logic once the address is geocoded to [(lat, lon)]. *)
Definition search (rt : Runtime) (stadiums : DataFrame) (lat lon : float)
  (transport_choice type_choice nature_choice : string)
  (surface_choice : surface_arg) (activity_choice : string)
  (radius : float) (max_res : Z) : failure + outcome :=
  match filtered rt stadiums transport_choice type_choice nature_choice
          surface_choice activity_choice with
  | Raise e => inl (FilterRaised e)
  | Ok df_filtered =>
      if empty df_filtered then inr (NoMatch no_criteria_match)
      else
        match results rt lat lon df_filtered radius max_res with
        | None => inl IndexError
        | Some rows =>
            if empty rows then inr (NoMatch out_of_radius)
            else inr (Found rows)
        end
  end.

(** ** The filters as row predicates

    What each criterion asks of one row; [selection] is the frame a call
    returns, read off the three steps of [apply_selection_filters]. *)

(** The transport criterion on one row, for a compiled search. *)
Definition transport_cell_passes (rt : Runtime) (search : string -> bool)
  (c : cell) : bool :=
  match astype_str rt c with
  | NA => false
  | Text s => search s
  end.

Definition transport_pred (rt : Runtime) (transport : string)
  : option (Row -> bool) :=
  if String.eqb transport no_preference then Some (fun _ => true)
  else
    match re_compile rt transport with
    | Some search =>
        Some (fun row => transport_cell_passes rt search (inst_trans_type row))
    | None => None
    end.

Definition equality_pred (col : Row -> cell) (value : string) (row : Row)
  : bool :=
  String.eqb value no_preference || cell_eqb (col row) value.

Definition surface_active (surface : surface_arg) : bool :=
  surface_ne surface no_preference && isinstance_list surface
  && (0 <? len surface)%nat.

Definition surface_pred (surface : surface_arg) (row : Row) : bool :=
  negb (surface_active surface)
  || existsb (cell_eqb (equip_sol row)) (surface_values surface).

Definition selection (rt : Runtime) (transport equip_type nature : string)
  (surface : surface_arg) (activity : string) (df : DataFrame)
  : result DataFrame :=
  match transport_pred rt transport with
  | None => Raise re_error
  | Some by_transport =>
      Ok (filter (surface_pred surface)
            (filter (equality_pred aps_name activity)
               (filter (equality_pred equip_nature nature)
                  (filter (equality_pred equip_type_name equip_type)
                     (filter by_transport df)))))
  end.

(** ** Criteria one at a time *)

Record Criteria := {
  transport : string;
  equip_type : string;
  nature : string;
  surface : surface_arg;
  activity : string
}.

Inductive criterion :=
| ByTransport | ByType | ByNature | BySurface | ByActivity.

Definition criterion_eqb (j k : criterion) : bool :=
  match j, k with
  | ByTransport, ByTransport | ByType, ByType | ByNature, ByNature
  | BySurface, BySurface | ByActivity, ByActivity => true
  | _, _ => false
  end.

(** The criteria of [c] named in [keep]; the others are "No preference". *)
Definition restrict (keep : list criterion) (c : Criteria) : Criteria :=
  let kept k := existsb (criterion_eqb k) keep in
  {| transport := if kept ByTransport then transport c else no_preference;
     equip_type := if kept ByType then equip_type c else no_preference;
     nature := if kept ByNature then nature c else no_preference;
     surface := if kept BySurface then surface c else SurfaceStr no_preference;
     activity := if kept ByActivity then activity c else no_preference |}.

Definition filter_by (rt : Runtime) (df : DataFrame) (c : Criteria)
  : result DataFrame :=
  filtered rt df (transport c) (equip_type c) (nature c) (surface c)
    (activity c).

(** Equality of rows, field by field. *)
Definition cell_beq (c d : cell) : bool :=
  match c, d with
  | NA, NA => true
  | Text s, Text t => String.eqb s t
  | _, _ => false
  end.

Definition Row_eqb (r s : Row) : bool :=
  cell_beq (inst_nom r) (inst_nom s)
  && cell_beq (inst_trans_type r) (inst_trans_type s)
  && cell_beq (equip_type_name r) (equip_type_name s)
  && cell_beq (equip_nature r) (equip_nature s)
  && cell_beq (equip_sol r) (equip_sol s)
  && cell_beq (aps_name r) (aps_name s)
  && Leibniz.eqb (latitude r) (latitude s)
  && Leibniz.eqb (longitude r) (longitude s).

(** The rows of [a] that are also in [b]. *)
Definition intersect (a b : DataFrame) : DataFrame :=
  filter (fun r => existsb (Row_eqb r) b) a.

Definition intersect_results (a b : result DataFrame) : result DataFrame :=
  match a, b with
  | Ok x, Ok y => Ok (intersect x y)
  | Raise e, _ => Raise e
  | Ok _, Raise e => Raise e
  end.

(** How often a row occurs in a frame. *)
Definition occurrences (r : Row) (df : DataFrame) : nat :=
  List.length (filter (Row_eqb r) df).

(** [s] is [l] with some elements removed. *)
Inductive Subseq {A : Type} : list A -> list A -> Prop :=
| Subseq_nil : Subseq [] []
| Subseq_keep x s l : Subseq s l -> Subseq (x :: s) (x :: l)
| Subseq_drop x s l : Subseq s l -> Subseq s (x :: l).

(** ** Sorting *)

Definition not_nan (x : float) : Prop := is_nan x = false.

Definition fle (x y : float) : Prop := (x <=? y) = true.

(** What [argsort] promises on a key array: the positions of the array, each
    once, with the keys non-decreasing along them. *)
Definition argsort_ok (argsort : list float -> list nat) (keys : list float)
  : Prop :=
  Permutation (argsort keys) (seq 0 (List.length keys))
  /\ Sorted fle (map (fun i => nth i keys nan) (argsort keys)).

Definition sorts (argsort : list float -> list nat) : Prop :=
  forall keys, Forall not_nan keys -> argsort_ok argsort keys.



(** Sorting by insertion, scanning the keys from the first to the last:
    [before x y] says whether a new key [x] goes in front of a placed [y]. *)
Section Insertion.

Variable before : float -> float -> bool.
Variable keys : list float.

Fixpoint insert_position (i : nat) (placed : list nat) : list nat :=
  match placed with
  | [] => [i]
  | j :: rest =>
      if before (nth i keys nan) (nth j keys nan) then i :: placed
      else j :: insert_position i rest
  end.

Definition argsort_insertion : list nat :=
  fold_left (fun placed i => insert_position i placed)
    (seq 0 (List.length keys)) [].

End Insertion.

(** Behind equal keys: stable. *)
Definition argsort_stable : list float -> list nat :=
  argsort_insertion PrimFloat.ltb.






(** In a store grown from [st0], [r] is a frame made since, with rows [d]. *)
Definition made_since (st0 st : Store) (r : ref) (d : DataFrame) : Prop :=
  (exists extra, st = st0 ++ extra)
  /\ List.length st0 <= r
  /\ nth_error st r = Some d.

(** ** A runtime and a small dataset to run the definitions on *)

(** Truncated series stand in for the elementary functions; every pattern
    beyond alternation is refused; a missing cell is rendered as pandas 2
    does; the sort is the stable insertion sort. *)
Definition example_runtime : Runtime :=
  {| re_beyond := fun _ => None;
     astype_str_na := true;
     np_sin := fun x => x - x * x * x / 6;
     np_cos := fun x => 1 - x * x / 2;
     np_arctan2 := fun y x => y / x;
     argsort_quicksort := argsort_stable |}.


Definition football_pitch (name : string) (trans : cell) (sol : string)
  (lat lon : float) : Row :=
  {| inst_nom := Text name;
     inst_trans_type := trans;
     equip_type_name := Text "Terrain de football";
     equip_nature := Text "Découvert";
     equip_sol := Text sol;
     aps_name := Text "Football / Football en salle (Futsal)";
     latitude := lat;
     longitude := lon |}.

Definition stade_nord : Row :=
  football_pitch "Stade Nord" (Text "Bus, Tramway") "Gazon synthétique"
    48.875 2.375.

Definition stade_sud : Row :=
  football_pitch "Stade Sud" (Text "Métro") "Bitume" 48.75 2.25.

Definition stade_est : Row :=
  football_pitch "Stade Est" (Text "Train") "Gazon naturel" 48.875 2.375.

Definition stade_ouest : Row :=
  football_pitch "Stade Ouest" NA "Bitume" 43.25 5.375.

Definition example_stadiums : DataFrame :=
  [stade_nord; stade_sud; stade_est; stade_ouest].

(** An indoor hall between Stade Nord and Stade Sud. *)
Definition salle_centre : Row :=
  {| inst_nom := Text "Salle Centre";
     inst_trans_type := Text "Bus";
     equip_type_name := Text "Multisports/City-stades";
     equip_nature := Text "Intérieur";
     equip_sol := Text "Synthétique";
     aps_name := Text "Football / Football en salle (Futsal)";
     latitude := 48.8125;
     longitude := 2.3125 |}.

(** Four places within 20 km of Stade Nord, the two at that very place
    last. *)
Definition mixed_stadiums : DataFrame :=
  [stade_sud; salle_centre; stade_nord; stade_est].

(** The transport criterion read as a plain substring test. *)
Definition descriptor_contains (t : string) (row : Row) : bool :=
  match inst_trans_type row with
  | NA => false
  | Text x => Text.str_find t x
  end.

(** Rows in non-decreasing distance. *)
Definition by_distance (r s : Ranked) : Prop :=
  fle (distance_km r) (distance_km s).

(** The frame of a search after [assign]: each filtered facility with its
    distance from [(lat, lon)]. *)
Definition with_distances (rt : Runtime) (lat lon : float)
  (df_filtered : DataFrame) : list Ranked :=
  assign_distance_km df_filtered
    (haversine_vectorized rt lat lon
       (map latitude df_filtered) (map longitude df_filtered)).

(** A row to read positions with; it is never part of a frame. *)
Definition no_row : Ranked :=
  {| facility := football_pitch "" NA "" 0 0; distance_km := nan |}.


(** ** Numbers that are zero or finite *)

Definition SFsign (f : spec_float) : bool :=
  match f with
  | S754_zero s | S754_infinity s | S754_finite s _ _ => s
  | S754_nan => false
  end.

(** Zero, or finite with a mantissa of at most 53 digits and an exponent of
    at most [E]. *)
Definition small (E : Z) (f : spec_float) : Prop :=
  match f with
  | S754_zero _ => True
  | S754_finite _ m e => (Zdigits2 (Z.pos m) <= 53 /\ e <= E)%Z
  | _ => False
  end.

(** ** All criteria on one row *)

(** What a call asks of a row, given the test its transport criterion
    compiles to. *)
Definition row_passes (by_transport : Row -> bool) (equip_type nature : string)
  (surface : surface_arg) (activity : string) (row : Row) : bool :=
  by_transport row
  && equality_pred equip_type_name equip_type row
  && equality_pred equip_nature nature row
  && equality_pred aps_name activity row
  && surface_pred surface row.

(** A runtime with the small-angle functions: [sin x = x], [cos x = 1]. *)
Definition small_angle_runtime : Runtime :=
  {| re_beyond := re_beyond example_runtime;
     astype_str_na := astype_str_na example_runtime;
     np_sin := fun x => x;
     np_cos := fun _ => 1;
     np_arctan2 := fun y x => y / x;
     argsort_quicksort := argsort_stable |}.

(** ** Loading the dataset

    [load_data] reads the spreadsheet and splits its coordinates column.
    The spreadsheet rows are the input here; Python's [float] on a text is a
    parameter ([None] when it raises [ValueError]). *)

(** A row of the spreadsheet as [read_excel] gives it. *)
Record SheetRow := {
  sheet_inst_nom : cell;
  sheet_inst_trans_type : cell;
  sheet_equip_type_name : cell;
  sheet_equip_nature : cell;
  sheet_equip_sol : cell;
  sheet_aps_name : cell;
  equip_coordonnees : cell
}.

Inductive load_error :=
| ColumnsLength   (* "Columns must be same length as key" *)
| NotAFloat.      (* "could not convert string to float" *)

(** A cell of the frame [str.split(",", expand=True)] builds. *)
Definition part := option string.

(** [series.str.split(sep)] on one cell: the parts of a text; a missing cell
    stays one missing value. *)
Definition str_split (sep : ascii) (c : cell) : list part :=
  match c with
  | NA => [None]
  | Text s => map Some (Text.split_on sep s)
  end.

(** The widest row decides the number of columns. *)
Definition width (rows : list (list part)) : nat :=
  fold_right (fun row w => Nat.max (List.length row) w) 0%nat rows.

(** [expand=True]: every row is filled up to the width with missing values. *)
Definition expand (rows : list (list part)) : list (list part) :=
  let w := width rows in
  map (fun row => row ++ repeat None (w - List.length row)) rows.

Section Loading.

(** Python's [float(text)]. *)
Variable float_of_text : string -> option float.

(** [astype(float)] on one cell: a missing value becomes NaN. *)
Definition part_astype_float (p : part) : option float :=
  match p with
  | None => Some nan
  | Some s => float_of_text s
  end.

Fixpoint row_astype_float (row : list part) : option (list float) :=
  match row with
  | [] => Some []
  | p :: rest =>
      match part_astype_float p, row_astype_float rest with
      | Some x, Some xs => Some (x :: xs)
      | _, _ => None
      end
  end.

Fixpoint frame_astype_float (rows : list (list part))
  : option (list (list float)) :=
  match rows with
  | [] => Some []
  | row :: rest =>
      match row_astype_float row, frame_astype_float rest with
      | Some xs, Some xss => Some (xs :: xss)
      | _, _ => None
      end
  end.

(** [df[["latitude", "longitude"]] = values], row by row; [values] has two
    columns. *)
Fixpoint assign_coordinates (df : list SheetRow) (values : list (list float))
  : DataFrame :=
  match df, values with
  | r :: df', [lat; lon] :: values' =>
      {| inst_nom := sheet_inst_nom r;
         inst_trans_type := sheet_inst_trans_type r;
         equip_type_name := sheet_equip_type_name r;
         equip_nature := sheet_equip_nature r;
         equip_sol := sheet_equip_sol r;
         aps_name := sheet_aps_name r;
         latitude := lat;
         longitude := lon |}
      :: assign_coordinates df' values'
  | _, _ => []
  end.

(** [load_data], from the rows of the spreadsheet. *)
Definition load_data (df : list SheetRow) : load_error + DataFrame :=
  let parts := expand (map (fun r => str_split "," (equip_coordonnees r)) df) in
  match frame_astype_float parts with
  | None => inl NotAFloat
  | Some values =>
      if Nat.eqb (width parts) 2 then inr (assign_coordinates df values)
      else inl ColumnsLength
  end.

End Loading.

(** The number of commas of a text. *)
Definition commas (s : string) : nat :=
  List.length (filter (Ascii.eqb ",") (list_ascii_of_string s)).

(** The columns [load_data] leaves as they are. *)
Definition same_columns (r : SheetRow) (row : Row) : Prop :=
  inst_nom row = sheet_inst_nom r
  /\ inst_trans_type row = sheet_inst_trans_type r
  /\ equip_type_name row = sheet_equip_type_name r
  /\ equip_nature row = sheet_equip_nature r
  /\ equip_sol row = sheet_equip_sol r
  /\ aps_name row = sheet_aps_name r.

(** The two cells of a row after the split, filled up to two columns. *)
Definition two_parts (c : cell) : list part :=
  str_split "," c ++ repeat None (2 - List.length (str_split "," c)).

(** What [load_data] makes of one row of the spreadsheet: the columns it
    keeps, and the two coordinates converted from the two parts. *)
Definition loaded (float_of_text : string -> option float)
  (r : SheetRow) (row : Row) : Prop :=
  same_columns r row
  /\ exists p q,
       two_parts (equip_coordonnees r) = [p; q]
       /\ part_astype_float float_of_text p = Some (latitude row)
       /\ part_astype_float float_of_text q = Some (longitude row).

(** [float] on the texts of the example sheet. *)
Definition example_float_of_text (s : string) : option float :=
  if String.eqb s "48.875" then Some 48.875
  else if String.eqb s "2.375" then Some 2.375
  else if String.eqb s "48.75" then Some 48.75
  else if String.eqb s "2.25" then Some 2.25
  else None.

Definition sheet_pitch (name coordinates : string) : SheetRow :=
  {| sheet_inst_nom := Text name;
     sheet_inst_trans_type := Text "Bus, Tramway";
     sheet_equip_type_name := Text "Terrain de football";
     sheet_equip_nature := Text "Découvert";
     sheet_equip_sol := Text "Gazon synthétique";
     sheet_aps_name := Text "Football / Football en salle (Futsal)";
     equip_coordonnees := Text coordinates |}.

Definition example_sheet : list SheetRow :=
  [sheet_pitch "Stade Nord" "48.875,2.375";
   sheet_pitch "Stade Sud" "48.75,2.25"].

(** ** Geocoding

    [geocode_address] asks the geocoding service and reads the coordinates
    out of the decoded answer.  The service is a parameter; the values are
    those [response.json()] can return. *)

(** A decoded text, as its code points: the script indexes what it
    decodes. *)
Definition utext := list nat.

(** A text of the script. *)
Definition u (s : string) : utext :=
  map nat_of_ascii (list_ascii_of_string s).

Definition utext_eqb (s t : utext) : bool :=
  if list_eq_dec Nat.eq_dec s t then true else false.

(** A decoded JSON value; an object keeps its members in document order. *)
#[warnings="-register-all"]
Inductive pyval :=
| PyNone
| PyBool (b : bool)
| PyInt (z : Z)
| PyFloat (f : float)
| PyStr (s : utext)
| PyList (items : list pyval)
| PyDict (members : list (utext * pyval)).

(** The value of a key of an object; of two members with one key the later
    one counts. *)
Fixpoint dict_lookup (key : utext) (members : list (utext * pyval))
  : option pyval :=
  match members with
  | [] => None
  | (k, v) :: rest =>
      match dict_lookup key rest with
      | Some later => Some later
      | None => if utext_eqb k key then Some v else None
      end
  end.

(** [bool(x)]. *)
Definition truthy (x : pyval) : bool :=
  match x with
  | PyNone => false
  | PyBool b => b
  | PyInt z => negb (Z.eqb z 0)
  | PyFloat f => negb (f =? 0)
  | PyStr s => negb (empty s)
  | PyList items => negb (empty items)
  | PyDict members => negb (empty members)
  end.

(** [x.get(key, default)]; [None] when [x] has no [get]
    ([AttributeError]). *)
Definition py_get (x : pyval) (key : utext) (default : pyval) : option pyval :=
  match x with
  | PyDict members =>
      match dict_lookup key members with
      | Some v => Some v
      | None => Some default
      end
  | _ => None
  end.

(** [x[i]] for a position [i]; [None] when it raises ([IndexError],
    [KeyError] on an object, whose keys are texts, [TypeError]). *)
Definition py_item (x : pyval) (i : nat) : option pyval :=
  match x with
  | PyList items => nth_error items i
  | PyStr s =>
      match nth_error s i with
      | Some c => Some (PyStr [c])
      | None => None
      end
  | _ => None
  end.

(** [x[key]] for a text [key]; [None] when it raises ([KeyError],
    [TypeError]). *)
Definition py_member (x : pyval) (key : utext) : option pyval :=
  match x with
  | PyDict members => dict_lookup key members
  | _ => None
  end.

(** What [requests.get] comes back with: an exception (no connection, time
    out), or a response with its status and its body decoded as JSON
    ([None] when the body is not JSON). *)
Inductive reply :=
| NoReply
| Reply (status_code : nat) (json : option pyval).

Record request := {
  url : string;
  params : list (utext * pyval);
  timeout : Z
}.

(** [response.raise_for_status()] raises for a status from 400 to 599. *)
Definition raise_for_status (status_code : nat) : bool :=
  (400 <=? status_code)%nat && (status_code <? 600)%nat.

(** The request of [geocode_address]. *)
Definition geocode_request (address : utext) : request :=
  {| url := "https://data.geopf.fr/geocodage/search";
     params := [(u "q", PyStr address); (u "limit", PyInt 1);
                (u "returntruegeometry", PyStr (u "false"))];
     timeout := 5 |}.

(** The body of the [try]: [None] when an exception is raised. *)
Definition geocode_try (requests_get : request -> reply) (address : utext)
  : option (pyval * pyval) :=
  match requests_get (geocode_request address) with
  | NoReply => None
  | Reply status_code json =>
      if raise_for_status status_code then None
      else
        match json with
        | None => None
        | Some data =>
            match py_get data (u "features") (PyList []) with
            | None => None
            | Some features =>
                if negb (truthy features) then Some (PyNone, PyNone)
                else
                  match py_item features 0 with
                  | None => None
                  | Some feature =>
                      match py_member feature (u "geometry") with
                      | None => None
                      | Some geometry =>
                          match py_member geometry (u "coordinates") with
                          | None => None
                          | Some coordinates =>
                              match py_item coordinates 1,
                                    py_item coordinates 0 with
                              | Some lat, Some lon => Some (lat, lon)
                              | _, _ => None
                              end
                          end
                      end
                  end
            end
        end
  end.

Definition geocode_address (requests_get : request -> reply)
  (address : utext) : pyval * pyval :=
  match geocode_try requests_get address with
  | Some found => found
  | None => (PyNone, PyNone)   (* except Exception *)
  end.

(** [x is None]. *)
Definition is_None (x : pyval) : bool :=
  match x with
  | PyNone => true
  | _ => false
  end.

(** ** The page

    One run of the script: the values of the sidebar's widgets, the flag
    [search_performed] of the session, and what the main part shows.  The
    script runs again on every change of a widget; the session outlives the
    runs. *)

Module Sidebar.

Record Widgets := {
  address_input : utext;
  type_choice : string;
  nature_choice : string;
  picked_surfaces : list string;   (* the value of the multiselect *)
  activity_choice : string;
  transport_choice : string;
  radius : Z;                      (* a slider from 1 to 50 *)
  max_res : Z;                     (* a slider from 1 to 20 *)
  search_btn : bool
}.

(** [surface_choice] after the test on the empty selection. *)
Definition surface_choice (w : Widgets) : surface_arg :=
  if empty (picked_surfaces w) then SurfaceStr no_preference
  else SurfaceList (picked_surfaces w).

End Sidebar.

(** The integer [z] as a float: the nearest binary64 number, ties to
    even. *)
Definition float_of_Z (z : Z) : float :=
  SF2Prim (binary_normalize prec emax z 0 false).

(** [float(x)] as [math.radians] takes it. *)
Inductive conversion_error := TypeError | OverflowError.

Definition as_float (x : pyval) : conversion_error + float :=
  match x with
  | PyFloat f => inr f
  | PyInt z =>
      let f := float_of_Z z in
      if is_infinity f then inl OverflowError else inr f
  | PyBool b => inr (if b then 1 else 0)
  | _ => inl TypeError
  end.

(** What the main part of the page shows. *)
Inductive shown :=
| Invitation        (* "Set your criteria in the sidebar and click Search." *)
| AddressMissing    (* "Please enter an address to start." *)
| AddressNotFound   (* "Address not found. Please be more specific." *)
| Searched (o : outcome).

Inductive page_failure :=
| SearchFailed (f : failure)
| NotANumber (e : conversion_error).

(** The run of the script below the sidebar; the flag it leaves in the
    session comes second.  An exception ends the run and leaves the flag as
    it is then. *)
Definition page (rt : Runtime) (requests_get : request -> reply)
  (stadiums : DataFrame) (session : option bool) (w : Sidebar.Widgets)
  : (page_failure + shown) * bool :=
  let search_performed :=
    match session with
    | Some flag => flag
    | None => false
    end in
  let search_performed :=
    if Sidebar.search_btn w then true else search_performed in
  if search_performed then
    if empty (Sidebar.address_input w) then (inr AddressMissing, false)
    else
      let '(lat, lon) :=
        geocode_address requests_get (Sidebar.address_input w) in
      if is_None lat then (inr AddressNotFound, search_performed)
      else
        match filtered rt stadiums (Sidebar.transport_choice w)
                (Sidebar.type_choice w) (Sidebar.nature_choice w)
                (Sidebar.surface_choice w) (Sidebar.activity_choice w) with
        | Raise e => (inl (SearchFailed (FilterRaised e)), search_performed)
        | Ok df_filtered =>
            if empty df_filtered
            then (inr (Searched (NoMatch no_criteria_match)),
                  search_performed)
            else
              match as_float lat with
              | inl e => (inl (NotANumber e), search_performed)
              | inr lat =>
                  match as_float lon with
                  | inl e => (inl (NotANumber e), search_performed)
                  | inr lon =>
                      match results rt lat lon df_filtered
                              (float_of_Z (Sidebar.radius w))
                              (Sidebar.max_res w) with
                      | None =>
                          (inl (SearchFailed IndexError), search_performed)
                      | Some rows =>
                          if empty rows
                          then (inr (Searched (NoMatch out_of_radius)),
                                search_performed)
                          else (inr (Searched (Found rows)),
                                search_performed)
                      end
                  end
              end
        end
  else (inr Invitation, search_performed).

(** One run: its widgets and the service as it answers then. *)
Record Run := {
  widgets : Sidebar.Widgets;
  service : request -> reply
}.

(** The flag after the runs of a session, from the oldest on. *)
Fixpoint session_after (rt : Runtime) (stadiums : DataFrame)
  (session : option bool) (runs : list Run) : option bool :=
  match runs with
  | [] => session
  | r :: later =>
      session_after rt stadiums
        (Some (snd (page rt (service r) stadiums session (widgets r))))
        later
  end.

(** An answer of the service with one point. *)
Definition point_reply (lon lat : pyval) : reply :=
  Reply 200
    (Some (PyDict
       [(u "type", PyStr (u "FeatureCollection"));
        (u "features",
         PyList
           [PyDict
              [(u "type", PyStr (u "Feature"));
               (u "geometry",
                PyDict [(u "type", PyStr (u "Point"));
                        (u "coordinates", PyList [lon; lat])])]])])).

(** A service that knows one place. *)
Definition example_service (_ : request) : reply :=
  point_reply (PyFloat 2.375) (PyFloat 48.875).

Definition example_widgets : Sidebar.Widgets :=
  {| Sidebar.address_input := u "Stade Nord";
     Sidebar.type_choice := no_preference;
     Sidebar.nature_choice := no_preference;
     Sidebar.picked_surfaces := [];
     Sidebar.activity_choice := no_preference;
     Sidebar.transport_choice := no_preference;
     Sidebar.radius := 20;
     Sidebar.max_res := 5;
     Sidebar.search_btn := true |}.

(** A service whose point has no longitude. *)
Definition service_without_longitude (_ : request) : reply :=
  point_reply PyNone (PyFloat 48.875).

(** * Properties *)

(** ** Lists *)

Lemma filter_all {A} (p : A -> bool) (l : list A) :
  (forall x, p x = true) -> filter p l = l.
Proof.
  intros H. induction l as [|x l IH]; simpl; [reflexivity|].
  now rewrite H, IH.
Qed.

Lemma filter_all_in {A} (p : A -> bool) (l : list A) :
  (forall x, In x l -> p x = true) -> filter p l = l.
Proof.
  induction l as [|x l IH]; simpl; intros H; [reflexivity|].
  rewrite (H x) by now left. rewrite IH; [reflexivity|].
  intros y Hy. apply H. now right.
Qed.

Lemma filter_true {A} (l : list A) : filter (fun _ => true) l = l.
Proof. now apply filter_all. Qed.

Lemma filter_idem {A} (p : A -> bool) (l : list A) :
  filter p (filter p l) = filter p l.
Proof.
  apply filter_all_in. intros x Hx. now apply filter_In in Hx.
Qed.

Lemma filter_comm {A} (p q : A -> bool) (l : list A) :
  filter p (filter q l) = filter q (filter p l).
Proof.
  induction l as [|x l IH]; simpl; [reflexivity|].
  destruct (p x) eqn:Hp, (q x) eqn:Hq; simpl; rewrite ?Hp, ?Hq, IH;
    reflexivity.
Qed.

Lemma filter_nil_Forall {A} (p : A -> bool) (l : list A) :
  filter p l = [] <-> Forall (fun x => p x = false) l.
Proof.
  induction l as [|x l IH]; cbn [filter].
  - split; [constructor | reflexivity].
  - destruct (p x) eqn:E; split.
    + discriminate.
    + intros H. inversion H; congruence.
    + intros H. constructor; [exact E | now apply IH].
    + intros H. inversion H. now apply IH.
Qed.


(** ** Text search *)

Module TextFacts.

Import Text.
Local Open Scope string_scope.

Lemma starts_with_spec pat : forall s,
  starts_with pat s = true <-> exists post, s = pat ++ post.
Proof.
  induction pat as [|c p IH]; intros s; simpl.
  - split; [intros _; now exists s | reflexivity].
  - destruct s as [|d t].
    + split; [discriminate | intros [post H]; discriminate].
    + rewrite andb_true_iff, IH. split.
      * intros [Hc [post ->]]. apply Ascii.eqb_eq in Hc. subst d.
        now exists post.
      * intros [post H]. injection H as -> ->. split.
        -- apply Ascii.eqb_refl.
        -- now exists post.
Qed.

Lemma str_find_spec pat : forall s,
  str_find pat s = true <-> Substring pat s.
Proof.
  unfold Substring. induction s as [|d t IH]; simpl.
  - rewrite orb_false_r, starts_with_spec. split.
    + intros [post H]. now exists "", post.
    + intros [pre [post H]]. destruct pre; simpl in H.
      * now exists post.
      * discriminate.
  - rewrite orb_true_iff, starts_with_spec, IH. split.
    + intros [[post H] | [pre [post H]]].
      * now exists "", post.
      * exists (String d pre), post. simpl. now rewrite H.
    + intros [pre [post H]]. destruct pre as [|c pre]; simpl in H.
      * left. now exists post.
      * right. injection H as _ H. now exists pre, post.
Qed.

Lemma split_on_no_sep sep : forall s,
  existsb (Ascii.eqb sep) (list_ascii_of_string s) = false ->
  split_on sep s = [s].
Proof.
  induction s as [|c t IH]; simpl; intros H.
  - reflexivity.
  - apply orb_false_iff in H as [Hc Ht].
    rewrite Ascii.eqb_sym, Hc, (IH Ht). reflexivity.
Qed.

End TextFacts.

(** ** Regular expressions *)

Module ReFacts.

Import Re.

Lemma literal_not_beyond pat :
  literal pat = true -> beyond_alternation pat = false.
Proof.
  unfold literal, beyond_alternation. rewrite negb_true_iff.
  induction (list_ascii_of_string pat) as [|c l IH]; simpl; intros H.
  - reflexivity.
  - apply orb_false_iff in H as [Hc Hl]. now rewrite Hc, (IH Hl).
Qed.

Lemma literal_no_bar pat :
  literal pat = true ->
  existsb (Ascii.eqb "|"%char) (list_ascii_of_string pat) = false.
Proof.
  unfold literal. rewrite negb_true_iff.
  induction (list_ascii_of_string pat) as [|c l IH]; cbn [existsb]; intros H.
  - reflexivity.
  - apply orb_false_iff in H as [Hc Hl]. rewrite (IH Hl), orb_false_r.
    destruct (Ascii.eqb_spec "|"%char c) as [<-|]; [discriminate | reflexivity].
Qed.

(** On a literal pattern the search is the substring test. *)
Lemma search_literal pat s :
  literal pat = true -> search_alternatives pat s = Text.str_find pat s.
Proof.
  intros H. unfold search_alternatives.
  rewrite (TextFacts.split_on_no_sep _ _ (literal_no_bar _ H)). simpl.
  apply orb_false_r.
Qed.

End ReFacts.

(** ** The store *)

Lemma select_rows_map (p : Row -> bool) : forall df,
  select_rows df (map p df) = filter p df.
Proof.
  induction df as [|row df IH]; simpl; [reflexivity|].
  rewrite IH. reflexivity.
Qed.

Lemma nth_error_new (st : Store) (df : DataFrame) :
  nth_error (st ++ [df]) (List.length st) = Some df.
Proof.
  rewrite nth_error_app2 by lia. now rewrite Nat.sub_diag.
Qed.

(** One filtering step on the frame [d] that [r] points to. *)
Lemma getitem_column_run (col : Row -> cell) (p : cell -> bool) st r d :
  nth_error st r = Some d ->
  (cells <- column col r ;; getitem_mask r (map p cells)) st
  = (Ok (List.length st), st ++ [filter (fun row => p (col row)) d]).
Proof.
  intros H. unfold bind, column, getitem_mask, bind, deref, ret, new_frame.
  rewrite H. rewrite H. rewrite map_map, select_rows_map. reflexivity.
Qed.

Lemma made_since_new st0 st r d d' :
  made_since st0 st r d ->
  made_since st0 (st ++ [d']) (List.length st) d'.
Proof.
  intros [[extra ->] [Hr Hd]]. repeat split.
  - exists (extra ++ [d']). now rewrite app_assoc.
  - rewrite length_app. lia.
  - apply nth_error_new.
Qed.

(** A step that filters when [active] and passes the frame on otherwise. *)
Lemma optional_step_run (active : bool) (col : Row -> cell) (p : cell -> bool)
  st0 st r d :
  made_since st0 st r d ->
  exists r' st',
    (if active then cells <- column col r ;; getitem_mask r (map p cells)
     else ret r) st = (Ok r', st')
    /\ made_since st0 st' r'
         (filter (fun row => negb active || p (col row)) d).
Proof.
  intros H. destruct active; simpl.
  - exists (List.length st), (st ++ [filter (fun row => p (col row)) d]). split.
    + apply getitem_column_run. apply H.
    + eapply made_since_new, H.
  - exists r, st. split; [reflexivity|].
    now rewrite filter_all.
Qed.

Lemma transport_step_run rt t st0 st r d :
  made_since st0 st r d ->
  match transport_pred rt t with
  | Some p =>
      exists r' st',
        (if negb (String.eqb t no_preference) then
           cells <- column inst_trans_type r ;;
           mask <- str_contains rt t false (map (astype_str rt) cells) ;;
           getitem_mask r mask
         else ret r) st = (Ok r', st')
        /\ made_since st0 st' r' (filter p d)
  | None =>
      (if negb (String.eqb t no_preference) then
         cells <- column inst_trans_type r ;;
         mask <- str_contains rt t false (map (astype_str rt) cells) ;;
         getitem_mask r mask
       else ret r) st = (Raise re_error, st)
  end.
Proof.
  intros H. unfold transport_pred.
  destruct (String.eqb t no_preference); simpl.
  - exists r, st. split; [reflexivity|]. now rewrite filter_all.
  - pose proof H as [_ [_ Hd]].
    unfold str_contains. destruct (re_compile rt t) as [search|].
    + exists (List.length st),
        (st ++ [filter (fun row =>
                  transport_cell_passes rt search (inst_trans_type row)) d]).
      split; [|eapply made_since_new, H].
      unfold bind, column, getitem_mask, bind, deref, ret, new_frame.
      rewrite Hd. rewrite Hd. do 2 rewrite map_map.
      rewrite <- (select_rows_map
                    (fun row => transport_cell_passes rt search
                                  (inst_trans_type row)) d).
      reflexivity.
    + unfold bind, column, bind, deref, ret, raise. rewrite Hd. reflexivity.
Qed.

Lemma bind_ok {A B} (m : Py A) (k : A -> Py B) st a st' :
  m st = (Ok a, st') -> bind m k st = k a st'.
Proof. intros H. unfold bind. now rewrite H. Qed.

Lemma bind_raise {A B} (m : Py A) (k : A -> Py B) st e st' :
  m st = (Raise e, st') -> bind m k st = (Raise e, st').
Proof. intros H. unfold bind. now rewrite H. Qed.

Lemma df_copy_run st src df :
  nth_error st src = Some df ->
  df_copy src st = (Ok (List.length st), st ++ [df]).
Proof.
  intros H. unfold df_copy, bind, deref, new_frame. now rewrite H.
Qed.

(** The run of a call whose source frame exists: every frame of the store is
    still there, and the returned reference is a frame made by the call, with
    the rows [selection] gives. *)
Lemma apply_selection_filters_run rt st src df t e n s a :
  nth_error st src = Some df ->
  match selection rt t e n s a df with
  | Ok out =>
      exists r st',
        apply_selection_filters rt src t e n s a st = (Ok r, st')
        /\ made_since st st' r out
  | Raise x =>
      apply_selection_filters rt src t e n s a st
      = (Raise x, st ++ [df])
  end.
Proof.
  intros Hsrc. unfold selection, apply_selection_filters.
  assert (H0 : made_since st (st ++ [df]) (List.length st) df).
  { repeat split; [now exists [df] | lia | apply nth_error_new]. }
  rewrite (bind_ok _ _ _ _ _ (df_copy_run _ _ _ Hsrc)).
  pose proof (transport_step_run rt t _ _ _ _ H0) as Ht.
  destruct (transport_pred rt t) as [p|].
  2:{ now rewrite (bind_raise _ _ _ _ _ Ht). }
  destruct Ht as [r1 [st1 [E1 H1]]].
  rewrite (bind_ok _ _ _ _ _ E1). cbn [for_each].
  destruct (optional_step_run (negb (String.eqb e no_preference))
              equip_type_name (fun c => cell_eqb c e) _ _ _ _ H1)
    as [r2 [st2 [E2 H2]]].
  destruct (optional_step_run (negb (String.eqb n no_preference))
              equip_nature (fun c => cell_eqb c n) _ _ _ _ H2)
    as [r3 [st3 [E3 H3]]].
  destruct (optional_step_run (negb (String.eqb a no_preference))
              aps_name (fun c => cell_eqb c a) _ _ _ _ H3)
    as [r4 [st4 [E4 H4]]].
  destruct (optional_step_run (surface_active s)
              equip_sol (fun c => existsb (cell_eqb c) (surface_values s))
              _ _ _ _ H4)
    as [r5 [st5 [E5 H5]]].
  exists r5, st5. split.
  - unfold series_eq, isin. fold (surface_active s).
    match goal with
    | |- bind ?loop _ _ = _ =>
        assert (Hloop : loop st1 = (Ok r4, st4))
    end.
    { rewrite (bind_ok _ _ _ _ _ E2), (bind_ok _ _ _ _ _ E3),
        (bind_ok _ _ _ _ _ E4). reflexivity. }
    rewrite (bind_ok _ _ _ _ _ Hloop), (bind_ok _ _ _ _ _ E5). reflexivity.
  - unfold surface_pred, equality_pred.
    repeat rewrite negb_involutive in H5. exact H5.
Qed.

(** The value of a call is [selection]. *)
Lemma filtered_selection rt df t e n s a :
  filtered rt df t e n s a = selection rt t e n s a df.
Proof.
  unfold filtered.
  pose proof (apply_selection_filters_run rt [df] 0 df t e n s a eq_refl) as H.
  destruct (selection rt t e n s a df) as [out|x].
  - destruct H as [r [st' [E [_ [_ Hout]]]]]. now rewrite E, Hout.
  - now rewrite H.
Qed.

(** A call on any store returns a frame with the rows of [filtered]. *)
Lemma apply_selection_filters_value rt st src df t e n s a r st' :
  nth_error st src = Some df ->
  apply_selection_filters rt src t e n s a st = (Ok r, st') ->
  filtered rt df t e n s a = Ok (nth r st' []).
Proof.
  intros Hsrc E. rewrite filtered_selection.
  pose proof (apply_selection_filters_run rt st src df t e n s a Hsrc) as H.
  destruct (selection rt t e n s a df) as [out|x].
  - destruct H as [r' [st'' [E' [_ [_ Hout]]]]].
    rewrite E in E'. injection E' as <- <-.
    now rewrite (nth_error_nth _ _ _ Hout).
  - rewrite E in H. discriminate.
Qed.

Lemma filter_Subseq {A} (p : A -> bool) (l : list A) : Subseq (filter p l) l.
Proof.
  induction l as [|x l IH]; simpl; [constructor|].
  destruct (p x); now constructor.
Qed.

Lemma Subseq_refl {A} (l : list A) : Subseq l l.
Proof. induction l; now constructor. Qed.

Lemma Subseq_trans {A} (a b c : list A) :
  Subseq a b -> Subseq b c -> Subseq a c.
Proof.
  intros Hab Hbc. revert a Hab.
  induction Hbc as [|x s l Hsl IH|x s l Hsl IH]; intros a Hab.
  - exact Hab.
  - inversion Hab; subst; constructor; auto.
  - constructor. auto.
Qed.

Lemma Subseq_In {A} (s l : list A) : Subseq s l -> forall x, In x s -> In x l.
Proof.
  induction 1 as [|x s l H IH|x s l H IH]; simpl; intros y Hy; intuition.
Qed.

Lemma Subseq_filter_length {A} (p : A -> bool) (s l : list A) :
  Subseq s l -> List.length (filter p s) <= List.length (filter p l).
Proof.
  induction 1 as [|x s l H IH|x s l H IH]; simpl.
  - lia.
  - destruct (p x); simpl; lia.
  - destruct (p x); simpl; lia.
Qed.

(** The rows [selection] keeps are rows of the frame, in its order. *)
Lemma selection_Subseq rt t e n s a df out :
  selection rt t e n s a df = Ok out -> Subseq out df.
Proof.
  unfold selection. destruct (transport_pred rt t) as [p|]; [|discriminate].
  intros H. injection H as <-.
  repeat (eapply Subseq_trans; [apply filter_Subseq|]).
  apply Subseq_refl.
Qed.

(** ** The attribute filters *)

(** C6: with every criterion at "No preference" and no surface value
    selected (the text "No preference", or an empty list), a call returns
    the rows of its input: all of them, unchanged, in their order. *)
Theorem no_preference_is_identity (rt : Runtime) (df : DataFrame) :
  filtered rt df no_preference no_preference no_preference
    (SurfaceStr no_preference) no_preference = Ok df
  /\ filtered rt df no_preference no_preference no_preference
       (SurfaceList []) no_preference = Ok df.
Proof.
  split; rewrite filtered_selection; unfold selection; cbn;
    repeat rewrite filter_all by reflexivity; reflexivity.
Qed.

(** C10: the rows a call returns are a subsequence of its input: each one is
    a row of the input, none occurs more often than in the input, and they
    come in the input's order.  The only call that returns nothing is one
    whose transport criterion [re] refuses to compile. *)
Theorem filtered_is_subsequence (rt : Runtime) (df : DataFrame)
  (t e n : string) (s : surface_arg) (a : string) :
  match filtered rt df t e n s a with
  | Ok out =>
      Subseq out df
      /\ (forall row, In row out -> In row df)
      /\ (forall row, occurrences row out <= occurrences row df)
  | Raise x =>
      x = re_error /\ t <> no_preference /\ re_compile rt t = None
  end.
Proof.
  rewrite filtered_selection.
  destruct (selection rt t e n s a df) as [out|x] eqn:E.
  - pose proof (selection_Subseq _ _ _ _ _ _ _ _ E) as H.
    repeat split.
    + exact H.
    + apply Subseq_In, H.
    + intros row. apply Subseq_filter_length, H.
  - unfold selection, transport_pred in E.
    destruct (String.eqb_spec t no_preference) as [->|Hne]; [discriminate|].
    destruct (re_compile rt t); [discriminate|].
    injection E as <-. auto.
Qed.

(** The store after a call is the store before it, followed by the frames
    the call made. *)
Lemma apply_selection_filters_extends rt st src t e n s a :
  exists extra,
    snd (apply_selection_filters rt src t e n s a st) = st ++ extra.
Proof.
  destruct (nth_error st src) as [df|] eqn:Hsrc.
  - pose proof (apply_selection_filters_run rt st src df t e n s a Hsrc) as H.
    destruct (selection rt t e n s a df) as [out|x].
    + destruct H as [r [st' [E [Hext _]]]]. rewrite E. exact Hext.
    + rewrite H. now exists [df].
  - exists []. rewrite app_nil_r.
    unfold apply_selection_filters, bind, df_copy, bind, deref.
    now rewrite Hsrc.
Qed.

(** C9: a call changes no frame of the store.  Every frame that existed
    before the call, the source among them, has the same rows in the same
    order afterwards, whatever the criteria and whether or not the call
    raises; the frame it returns is a new object, whose rows are the value
    [filtered] of the call. *)
Theorem filters_do_not_mutate (rt : Runtime) (st : Store) (src : ref)
  (t e n : string) (s : surface_arg) (a : string) :
  let (res, st') := apply_selection_filters rt src t e n s a st in
  (forall r, r < List.length st -> nth_error st' r = nth_error st r)
  /\ nth_error st' src = nth_error st src
  /\ (forall r, res = Ok r ->
        List.length st <= r /\ r <> src /\ r < List.length st')
  /\ (forall r df, res = Ok r -> nth_error st src = Some df ->
        filtered rt df t e n s a = Ok (nth r st' [])).
Proof.
  destruct (apply_selection_filters_extends rt st src t e n s a)
    as [extra Hext].
  destruct (apply_selection_filters rt src t e n s a st) as [res st'] eqn:E.
  simpl in Hext. subst st'.
  assert (Hold : forall r, r < List.length st ->
                 nth_error (st ++ extra) r = nth_error st r).
  { intros r Hr. now rewrite nth_error_app1. }
  split; [exact Hold|].
  assert (Hvalue : forall r df, res = Ok r -> nth_error st src = Some df ->
                   filtered rt df t e n s a = Ok (nth r (st ++ extra) [])).
  { intros r df -> Hsrc.
    exact (apply_selection_filters_value rt st src df t e n s a r _ Hsrc E). }
  destruct (nth_error st src) as [df|] eqn:Hsrc.
  - assert (Hlt : src < List.length st)
      by (apply nth_error_Some; congruence).
    split; [rewrite Hold by exact Hlt; exact Hsrc|].
    split; [|intros r df' Hr Hdf; now apply Hvalue].
    intros r ->.
    pose proof (apply_selection_filters_run rt st src df t e n s a Hsrc) as H.
    destruct (selection rt t e n s a df) as [out|x].
    + destruct H as [r' [st'' [E' [_ [Hr Hout]]]]].
      rewrite E in E'. injection E' as <- <-.
      repeat split; [exact Hr | lia | apply nth_error_Some; congruence].
    + rewrite E in H. discriminate.
  - unfold apply_selection_filters, bind, df_copy, bind, deref in E.
    rewrite Hsrc in E. injection E as <- Hst.
    split; [rewrite <- Hst; exact Hsrc|].
    split; intros; discriminate.
Qed.

Lemma existsb_cell_eqb (c : cell) (values : list string) :
  existsb (cell_eqb c) values = true
  <-> exists v, In v values /\ c = Text v.
Proof.
  rewrite existsb_exists. split.
  - intros [v [Hin Hv]]. exists v. split; [exact Hin|].
    destruct c as [|x]; [discriminate|]. simpl in Hv.
    apply String.eqb_eq in Hv. now subst.
  - intros [v [Hin ->]]. exists v. split; [exact Hin|].
    simpl. apply String.eqb_refl.
Qed.

(** C5: a non-empty list of surface values keeps, among the rows the other
    criteria keep, exactly those whose [equip_sol] equals one of the values;
    a pitch of "Gazon synthétique" does not pass the list with "Bitume"
    alone. *)
Theorem surface_criterion_any_of (rt : Runtime) (df : DataFrame)
  (t e n a : string) (values : list string) :
  values <> [] ->
  match filtered rt df t e n (SurfaceStr no_preference) a,
        filtered rt df t e n (SurfaceList values) a with
  | Ok others, Ok out =>
      out = filter (fun row => existsb (cell_eqb (equip_sol row)) values)
              others
      /\ (forall row,
            In row out <->
            In row others
            /\ exists v, In v values /\ equip_sol row = Text v)
  | Raise x, Raise y => x = y
  | _, _ => False
  end
  /\ (forall row,
        equip_sol row = Text "Gazon synthétique" ->
        filtered rt [row] no_preference no_preference no_preference
          (SurfaceList ["Bitume"]) no_preference = Ok []).
Proof.
  intros Hne. split.
  - rewrite !filtered_selection. unfold selection.
    destruct (transport_pred rt t) as [p|]; [|reflexivity].
    rewrite (filter_all (surface_pred (SurfaceStr no_preference)))
      by reflexivity.
    assert (Hact : surface_active (SurfaceList values) = true).
    { destruct values; [contradiction | reflexivity]. }
    split.
    + apply filter_ext. intros row. unfold surface_pred.
      now rewrite Hact.
    + intros row. rewrite filter_In. unfold surface_pred.
      rewrite Hact. simpl. now rewrite existsb_cell_eqb.
  - intros row Hrow. rewrite filtered_selection. unfold selection.
    cbn. rewrite Hrow. reflexivity.
Qed.

Lemma surface_criterion_any_of_witness :
  ["Bitume"; "Sable"] <> []
  /\ forall row,
       In row [stade_sud; stade_ouest] <->
       In row example_stadiums
       /\ exists v, In v ["Bitume"; "Sable"] /\ equip_sol row = Text v.
Proof.
  assert (H : ["Bitume"; "Sable"] <> []) by discriminate.
  split; [exact H|].
  exact (proj2 (proj1 (surface_criterion_any_of example_runtime
                         example_stadiums no_preference no_preference
                         no_preference no_preference _ H))).
Defined.

(** Every transport mode of the reference list is a literal pattern that
    does not occur in the text [nan]. *)
Lemma list_trans_literal (t : string) :
  In t list_trans -> t <> no_preference ->
  Re.literal t = true /\ Text.str_find t "nan" = false.
Proof.
  intros Hin Hne. simpl in Hin.
  repeat (destruct Hin as [<-|Hin]; [try (now split); now elim Hne|]).
  contradiction.
Qed.

Lemma transport_cell_passes_literal rt t c :
  Re.literal t = true -> Text.str_find t "nan" = false ->
  transport_cell_passes rt (Re.search_alternatives t) c
  = match c with NA => false | Text x => Text.str_find t x end.
Proof.
  intros Hlit Hnan. unfold transport_cell_passes, astype_str.
  destruct c as [|x].
  - destruct (astype_str_na rt); [|reflexivity].
    now rewrite ReFacts.search_literal.
  - now apply ReFacts.search_literal.
Qed.

(** C3 (amended): for a transport criterion other than "No preference" that
    is a value of the reference list, or more generally has no special
    character of [re] and does not occur in the text [nan], a call returns
    without raising and keeps, among the rows the other criteria keep,
    exactly those whose transport descriptor is a text containing the
    criterion as a substring; a row whose descriptor is missing is never
    kept.  "Bus" keeps a row with "Bus, Tramway" and drops one with
    "Métro". *)
Theorem transport_criterion_literal (rt : Runtime) (df : DataFrame)
  (t e n : string) (s : surface_arg) (a : string) :
  t <> no_preference ->
  In t list_trans
  \/ (Re.literal t = true /\ Text.str_find t "nan" = false) ->
  (exists others out,
     filtered rt df no_preference e n s a = Ok others
     /\ filtered rt df t e n s a = Ok out
     /\ out = filter (descriptor_contains t) others
     /\ (forall row,
           In row out <->
           In row others
           /\ exists x, inst_trans_type row = Text x /\ Text.Substring t x)
     /\ (forall row, inst_trans_type row = NA -> ~ In row out))
  /\ (forall row,
        inst_trans_type row = Text "Bus, Tramway" ->
        filtered rt [row] "Bus" no_preference no_preference
          (SurfaceStr no_preference) no_preference = Ok [row])
  /\ (forall row,
        inst_trans_type row = Text "Métro" ->
        filtered rt [row] "Bus" no_preference no_preference
          (SurfaceStr no_preference) no_preference = Ok []).
Proof.
  intros Hne Ht.
  assert (Hlit : Re.literal t = true /\ Text.str_find t "nan" = false).
  { destruct Ht as [Hin|H]; [now apply list_trans_literal | exact H]. }
  destruct Hlit as [Hlit Hnan]. split; [|split].
  - rewrite !filtered_selection. unfold selection, transport_pred.
    rewrite String.eqb_refl.
    destruct (String.eqb_spec t no_preference) as [E|_]; [contradiction|].
    unfold re_compile. rewrite (ReFacts.literal_not_beyond _ Hlit).
    rewrite (filter_all (fun _ : Row => true)) by reflexivity.
    eexists. eexists. split; [reflexivity|]. split; [reflexivity|].
    assert (Hout :
      filter (surface_pred s)
        (filter (equality_pred aps_name a)
           (filter (equality_pred equip_nature n)
              (filter (equality_pred equip_type_name e)
                 (filter (fun row =>
                    transport_cell_passes rt (Re.search_alternatives t)
                      (inst_trans_type row)) df))))
      = filter (descriptor_contains t)
          (filter (surface_pred s)
             (filter (equality_pred aps_name a)
                (filter (equality_pred equip_nature n)
                   (filter (equality_pred equip_type_name e) df))))).
    { rewrite (filter_ext
                 (fun row =>
                    transport_cell_passes rt (Re.search_alternatives t)
                      (inst_trans_type row))
                 (descriptor_contains t))
        by (intros row; now apply transport_cell_passes_literal).
      rewrite (filter_comm (descriptor_contains t) (surface_pred s)).
      rewrite (filter_comm (descriptor_contains t) (equality_pred aps_name a)).
      rewrite (filter_comm (descriptor_contains t)
                 (equality_pred equip_nature n)).
      rewrite (filter_comm (descriptor_contains t)
                 (equality_pred equip_type_name e)).
      reflexivity. }
    split; [exact Hout|]. rewrite Hout. split.
    + intros row. rewrite filter_In. unfold descriptor_contains.
      split.
      * intros [Hin Hc]. split; [exact Hin|].
        destruct (inst_trans_type row) as [|x]; [discriminate|].
        exists x. split; [reflexivity|]. now apply TextFacts.str_find_spec.
      * intros [Hin [x [-> Hsub]]]. split; [exact Hin|].
        now apply TextFacts.str_find_spec.
    + intros row Hna Hin. apply filter_In in Hin as [_ Hc].
      unfold descriptor_contains in Hc. rewrite Hna in Hc. discriminate.
  - intros row Hrow. rewrite filtered_selection. unfold selection.
    cbn. unfold transport_cell_passes. rewrite Hrow. reflexivity.
  - intros row Hrow. rewrite filtered_selection. unfold selection.
    cbn. unfold transport_cell_passes. rewrite Hrow. reflexivity.
Qed.

Lemma transport_criterion_literal_witness :
  "Tramway" <> no_preference
  /\ (In "Tramway" list_trans
      \/ (Re.literal "Tramway" = true
          /\ Text.str_find "Tramway" "nan" = false))
  /\ exists others out,
       filtered example_runtime example_stadiums no_preference
         no_preference no_preference (SurfaceStr no_preference)
         no_preference = Ok others
       /\ filtered example_runtime example_stadiums "Tramway"
            no_preference no_preference (SurfaceStr no_preference)
            no_preference = Ok out
       /\ out = filter (descriptor_contains "Tramway") others
       /\ (forall row,
             In row out <->
             In row others
             /\ exists x,
                  inst_trans_type row = Text x
                  /\ Text.Substring "Tramway" x)
       /\ (forall row, inst_trans_type row = NA -> ~ In row out).
Proof.
  assert (H1 : "Tramway" <> no_preference) by discriminate.
  assert (H2 : In "Tramway" list_trans
               \/ (Re.literal "Tramway" = true
                   /\ Text.str_find "Tramway" "nan" = false)).
  { right. split; reflexivity. }
  split; [exact H1|]. split; [exact H2|].
  exact (proj1 (transport_criterion_literal example_runtime example_stadiums
                  "Tramway" no_preference no_preference
                  (SurfaceStr no_preference) no_preference H1 H2)).
Defined.

(** C3, as stated, fails: the criterion is compiled as a regular expression.
    "Bus|Train" is not "No preference", it keeps the row whose descriptor is
    "Train", and "Train" does not contain "Bus|Train". *)
Lemma transport_criterion_is_a_pattern :
  "Bus|Train" <> no_preference
  /\ inst_trans_type stade_est = Text "Train"
  /\ filtered example_runtime [stade_est] "Bus|Train" no_preference
       no_preference (SurfaceStr no_preference) no_preference
     = Ok [stade_est]
  /\ ~ Text.Substring "Bus|Train" "Train".
Proof.
  split; [discriminate|]. split; [reflexivity|]. split; [reflexivity|].
  intros H. apply TextFacts.str_find_spec in H. discriminate.
Qed.

(** Where [astype(str)] renders a missing cell as [nan], the criterion "nan"
    keeps a row whose descriptor is missing. *)
Lemma missing_descriptor_reads_nan :
  astype_str_na example_runtime = true
  /\ inst_trans_type stade_ouest = NA
  /\ filtered example_runtime [stade_ouest] "nan" no_preference
       no_preference (SurfaceStr no_preference) no_preference
     = Ok [stade_ouest].
Proof. repeat split. Qed.

(** ** Criteria intersect *)

Lemma cell_beq_spec (c d : cell) : cell_beq c d = true <-> c = d.
Proof.
  destruct c as [|x], d as [|y]; simpl; split; try congruence; try easy.
  - intros H. apply String.eqb_eq in H. now subst.
  - intros H. injection H as ->. apply String.eqb_refl.
Qed.

Lemma Row_eqb_spec (r s : Row) : Row_eqb r s = true <-> r = s.
Proof.
  unfold Row_eqb. rewrite !andb_true_iff, !cell_beq_spec, !Leibniz.eqb_spec.
  destruct r, s; simpl. split.
  - intros [[[[[[[-> ->] ->] ->] ->] ->] ->] ->]. reflexivity.
  - intros H. injection H as -> -> -> -> -> -> -> ->. repeat split.
Qed.

Lemma existsb_Row_eqb (r : Row) (df : DataFrame) :
  existsb (Row_eqb r) df = true <-> In r df.
Proof.
  rewrite existsb_exists. split.
  - intros [x [Hin Hx]]. apply Row_eqb_spec in Hx. now subst.
  - intros Hin. exists r. split; [exact Hin | now apply Row_eqb_spec].
Qed.

(** Intersecting two selections of one frame is selecting by both tests. *)
Lemma intersect_filter (p q : Row -> bool) (df : DataFrame) :
  intersect (filter p df) (filter q df) = filter q (filter p df).
Proof.
  unfold intersect. apply filter_ext_in. intros r Hr.
  apply filter_In in Hr as [Hin _].
  destruct (q r) eqn:Hq.
  - apply existsb_Row_eqb, filter_In. now split.
  - destruct (existsb (Row_eqb r) (filter q df)) eqn:E; [|reflexivity].
    apply existsb_Row_eqb, filter_In in E as [_ E]. congruence.
Qed.

Lemma intersect_self (df : DataFrame) : intersect df df = df.
Proof.
  unfold intersect. apply filter_all_in.
  intros r Hr. now apply existsb_Row_eqb.
Qed.

Lemma transport_pred_no_preference rt :
  transport_pred rt no_preference = Some (fun _ => true).
Proof. reflexivity. Qed.

Lemma filter_equality_no_preference col (df : DataFrame) :
  filter (equality_pred col no_preference) df = df.
Proof. now apply filter_all. Qed.

Lemma filter_surface_no_preference (df : DataFrame) :
  filter (surface_pred (SurfaceStr no_preference)) df = df.
Proof. now apply filter_all. Qed.

(** C7: filtering by two criteria at once gives the intersection of the two
    frames obtained by filtering by each of them alone, whichever two of the
    five criteria they are and whatever their values (a criterion that [re]
    refuses raises in both readings). *)
Theorem two_criteria_intersect (rt : Runtime) (df : DataFrame)
  (c : Criteria) (j k : criterion) :
  filter_by rt df (restrict [j; k] c)
  = intersect_results (filter_by rt df (restrict [j] c))
      (filter_by rt df (restrict [k] c)).
Proof.
  unfold filter_by. rewrite !filtered_selection.
  destruct j, k;
    cbn [restrict existsb criterion_eqb orb transport equip_type nature
         surface activity];
    unfold selection;
    rewrite ?transport_pred_no_preference;
    try destruct (transport_pred rt (transport c)) as [p|];
    cbn [intersect_results]; try reflexivity;
    rewrite ?filter_equality_no_preference, ?filter_surface_no_preference,
      ?filter_true;
    f_equal;
    rewrite ?intersect_filter, ?filter_idem;
    try reflexivity;
    try (symmetry; apply intersect_self);
    try apply filter_comm.
  all: now rewrite intersect_filter, filter_idem.
Qed.

(** ** The order of binary64 numbers *)

Module FloatOrder.

Ltac split_compare :=
  repeat match goal with
  | |- context [Z.compare ?a ?b] =>
      destruct (Z.compare_spec a b); subst
  | |- context [PosDef.Pos.compare_cont Eq ?a ?b] =>
      change (PosDef.Pos.compare_cont Eq a b) with (Pos.compare a b);
      destruct (Pos.compare_spec a b); subst
  end;
  cbn [CompOpp]; try lia; try congruence.

Ltac by_cases_on f :=
  destruct f as [[]|[]| |[] ? ?].

Lemma SFleb_trans (x y z : spec_float) :
  SFleb x y = true -> SFleb y z = true -> SFleb x z = true.
Proof.
  unfold SFleb. by_cases_on x; by_cases_on y; by_cases_on z;
    cbn [SFcompare]; try congruence; split_compare.
Qed.

Lemma SFleb_total (x y : spec_float) :
  x <> S754_nan -> y <> S754_nan -> SFleb x y = false -> SFleb y x = true.
Proof.
  unfold SFleb. by_cases_on x; by_cases_on y;
    cbn [SFcompare]; try congruence; split_compare.
Qed.

Lemma SFltb_leb (x y : spec_float) : SFltb x y = true -> SFleb x y = true.
Proof.
  unfold SFltb, SFleb. destruct (SFcompare x y) as [[]|]; congruence.
Qed.

Lemma SFltb_false_leb (x y : spec_float) :
  x <> S754_nan -> y <> S754_nan -> SFltb x y = false -> SFleb y x = true.
Proof.
  unfold SFleb, SFltb. by_cases_on x; by_cases_on y;
    cbn [SFcompare]; try congruence; split_compare.
Qed.

Lemma SFeqb_refl (x : spec_float) : x <> S754_nan -> SFeqb x x = true.
Proof.
  unfold SFeqb. by_cases_on x; cbn [SFcompare]; try congruence;
    split_compare.
Qed.





Lemma not_nan_spec (x : float) : not_nan x <-> Prim2SF x <> S754_nan.
Proof.
  unfold not_nan, is_nan. rewrite FloatAxioms.eqb_spec. split.
  - intros H E. rewrite E in H. discriminate.
  - intros H. now rewrite SFeqb_refl.
Qed.

Lemma fle_trans (x y z : float) : fle x y -> fle y z -> fle x z.
Proof. unfold fle. rewrite !FloatAxioms.leb_spec. apply SFleb_trans. Qed.

Lemma fle_not_nan (x y : float) : fle x y -> not_nan x.
Proof.
  unfold fle. rewrite FloatAxioms.leb_spec. intros H.
  apply not_nan_spec. intros E. rewrite E in H. discriminate.
Qed.




Lemma ltb_fle (x y : float) : (x <? y) = true -> fle x y.
Proof.
  unfold fle. rewrite FloatAxioms.ltb_spec, FloatAxioms.leb_spec.
  apply SFltb_leb.
Qed.

Lemma ltb_false_fle (x y : float) :
  not_nan x -> not_nan y -> (x <? y) = false -> fle y x.
Proof.
  unfold fle.
  rewrite FloatAxioms.ltb_spec, FloatAxioms.leb_spec, !not_nan_spec.
  apply SFltb_false_leb.
Qed.


Lemma leb_false_fle (x y : float) :
  not_nan x -> not_nan y -> (x <=? y) = false -> fle y x.
Proof.
  unfold fle. rewrite !FloatAxioms.leb_spec, !not_nan_spec.
  apply SFleb_total.
Qed.

End FloatOrder.

(** ** Positional selection *)

Lemma take_map {A} (d : A) (xs : list A) : forall positions,
  Forall (fun i => i < List.length xs) positions ->
  take positions xs = Some (map (fun i => nth i xs d) positions).
Proof.
  induction positions as [|i rest IH]; intros H; [reflexivity|].
  inversion H as [|? ? Hi Hrest]; subst. cbn [take map].
  rewrite (IH Hrest).
  destruct (nth_error xs i) as [x|] eqn:E.
  - now rewrite (nth_error_nth _ _ d E).
  - apply nth_error_None in E. lia.
Qed.

Lemma map_nth_seq {A} (d : A) (xs : list A) :
  map (fun i => nth i xs d) (seq 0 (List.length xs)) = xs.
Proof.
  induction xs as [|x xs IH]; [reflexivity|].
  cbn [List.length seq map nth]. f_equal.
  rewrite <- seq_shift, map_map. exact IH.
Qed.

Lemma Permutation_seq_bound (positions : list nat) (n : nat) :
  Permutation positions (seq 0 n) -> Forall (fun i => i < n) positions.
Proof.
  intros H. apply Forall_forall. intros i Hi.
  apply (Permutation_in _ H), in_seq in Hi. lia.
Qed.

Lemma positions_where_true (mask : list bool) : forall from,
  Forall (fun b => b = true) mask ->
  positions_where mask from = seq from (List.length mask).
Proof.
  induction mask as [|b mask IH]; intros from H; [reflexivity|].
  inversion H as [|? ? Hb Hrest]; subst. cbn. now rewrite IH.
Qed.

Lemma positions_where_false (mask : list bool) : forall from,
  Forall (fun b => b = false) mask -> positions_where mask from = [].
Proof.
  induction mask as [|b mask IH]; intros from H; [reflexivity|].
  inversion H as [|? ? Hb Hrest]; subst. cbn. now apply IH.
Qed.

(** On keys that are all numbers [nargsort] is [argsort]. *)
Lemma nargsort_numbers rt (items : list float) :
  Forall not_nan items ->
  Permutation (argsort_quicksort rt items) (seq 0 (List.length items)) ->
  nargsort rt items = Some (argsort_quicksort rt items).
Proof.
  intros Hnum Hperm. unfold nargsort.
  assert (Hfilter : filter (fun x => negb (is_nan x)) items = items).
  { apply filter_all_in. intros x Hx.
    rewrite Forall_forall in Hnum. now rewrite (Hnum x Hx). }
  rewrite Hfilter.
  rewrite positions_where_true, positions_where_false.
  - rewrite !length_map.
    rewrite (take_map 0%nat (seq 0 (List.length items))).
    + rewrite app_nil_r. f_equal.
      rewrite <- (map_id (argsort_quicksort rt items)) at 2.
      apply map_ext_in. intros i Hi.
      apply (Permutation_in _ Hperm), in_seq in Hi.
      rewrite seq_nth; lia.
    + rewrite length_seq. now apply Permutation_seq_bound.
  - rewrite Forall_map. eapply Forall_impl; [|exact Hnum].
    intros x Hx. exact Hx.
  - rewrite !Forall_map. eapply Forall_impl; [|exact Hnum].
    intros x Hx. unfold not_nan in Hx. now rewrite Hx.
Qed.

(** ** The sort step *)

Lemma Sorted_map {A B} (R : B -> B -> Prop) (f : A -> B) (l : list A) :
  Sorted R (map f l) -> Sorted (fun a b => R (f a) (f b)) l.
Proof.
  induction l as [|a l IH]; intros H; [constructor|].
  cbn [map] in H. inversion H as [|? ? Hs Hh]; subst.
  constructor; [now apply IH|].
  destruct l as [|b l]; constructor. now inversion Hh.
Qed.

Lemma by_distance_trans : Relations_1.Transitive by_distance.
Proof. intros r s u. apply FloatOrder.fle_trans. Qed.

(** What [sort_values] returns for a runtime whose [argsort] meets
    [argsort_ok] on the keys, all of them numbers: the rows, rearranged along
    the positions [argsort] gives, in non-decreasing distance. *)
Lemma sort_values_run rt (rows : list Ranked) (d : Ranked) :
  Forall (fun r => not_nan (distance_km r)) rows ->
  argsort_ok (argsort_quicksort rt) (map distance_km rows) ->
  let positions := argsort_quicksort rt (map distance_km rows) in
  sort_values rt rows = Some (map (fun i => nth i rows d) positions)
  /\ Permutation rows (map (fun i => nth i rows d) positions)
  /\ StronglySorted by_distance (map (fun i => nth i rows d) positions).
Proof.
  intros Hnum [Hperm Hsorted] positions. fold positions in Hperm, Hsorted.
  rewrite length_map in Hperm.
  assert (Hbound : Forall (fun i => i < List.length rows) positions)
    by now apply Permutation_seq_bound.
  unfold sort_values. rewrite nargsort_numbers.
  2:{ now rewrite Forall_map. }
  2:{ now rewrite length_map. }
  fold positions. rewrite (take_map d) by exact Hbound.
  split; [reflexivity|]. split.
  - rewrite <- (map_nth_seq d rows) at 1.
    apply Permutation_map, Permutation_sym, Hperm.
  - apply Sorted_StronglySorted; [exact by_distance_trans|].
    apply Sorted_map with (R := fle) (f := distance_km).
    rewrite map_map.
    erewrite map_ext_in; [exact Hsorted|].
    intros i Hi. cbv beta. rewrite Forall_forall in Hbound.
    rewrite (nth_indep _ nan (distance_km d))
      by (rewrite length_map; now apply Hbound).
    symmetry. apply map_nth.
Qed.

(** The rows within the radius have numbers for distances. *)
Lemma query_within_numbers (radius : float) (rows : list Ranked) :
  Forall (fun r => not_nan (distance_km r)) (query_within radius rows).
Proof.
  apply Forall_forall. intros r Hr. apply filter_In in Hr as [_ Hr].
  eapply FloatOrder.fle_not_nan. exact Hr.
Qed.

Lemma head_firstn {A} (n : Z) (xs : list A) :
  (0 <= n)%Z -> head n xs = firstn (Z.to_nat n) xs.
Proof.
  intros H. unfold head. destruct (Z.ltb_spec n 0); [lia | reflexivity].
Qed.

Lemma firstn_Subseq {A} (n : nat) : forall l : list A,
  Subseq (firstn n l) l.
Proof.
  induction n as [|n IH]; intros [|x l]; cbn [firstn]; try constructor.
  - clear. induction l; now constructor.
  - apply IH.
Qed.


(** ** Sorting by insertion *)

Lemma map_Sorted {A B} (R : B -> B -> Prop) (f : A -> B) (l : list A) :
  Sorted (fun a b => R (f a) (f b)) l -> Sorted R (map f l).
Proof.
  induction 1 as [|a l Hs IH Hh]; cbn [map]; constructor; [exact IH|].
  destruct Hh; cbn [map]; now constructor.
Qed.

Section InsertionSorts.

Variable before : float -> float -> bool.
Variable keys : list float.

Hypothesis keys_numbers : Forall not_nan keys.
Hypothesis before_le : forall x y, before x y = true -> fle x y.
Hypothesis not_before_ge :
  forall x y, not_nan x -> not_nan y -> before x y = false -> fle y x.

Let key (i : nat) : float := nth i keys nan.
Let in_order (i j : nat) : Prop := fle (key i) (key j).
Let valid (i : nat) : Prop := i < List.length keys.

Lemma valid_number i : valid i -> not_nan (key i).
Proof.
  intros H. rewrite Forall_forall in keys_numbers.
  apply keys_numbers, nth_In, H.
Qed.

Lemma insert_position_Permutation i : forall placed,
  Permutation (insert_position before keys i placed) (i :: placed).
Proof.
  induction placed as [|j rest IH]; cbn [insert_position].
  - apply Permutation_refl.
  - destruct (before _ _); [apply Permutation_refl|].
    eapply perm_trans; [apply perm_skip, IH | apply perm_swap].
Qed.

Lemma insert_position_HdRel a i : forall placed,
  HdRel in_order a placed -> in_order a i ->
  HdRel in_order a (insert_position before keys i placed).
Proof.
  intros [|j rest] Hh Hai; cbn [insert_position].
  - now constructor.
  - destruct (before _ _); constructor; [exact Hai|]. now inversion Hh.
Qed.

Lemma insert_position_Sorted i : forall placed,
  valid i -> Forall valid placed -> Sorted in_order placed ->
  Sorted in_order (insert_position before keys i placed).
Proof.
  intros placed Hi. induction placed as [|j rest IH]; intros Hv Hs;
    cbn [insert_position].
  - repeat constructor.
  - inversion Hv as [|? ? Hj Hrest]; subst.
    inversion Hs as [|? ? Hs' Hh]; subst.
    destruct (before (nth i keys nan) (nth j keys nan)) eqn:E.
    + constructor; [exact Hs|]. constructor. now apply before_le.
    + constructor; [now apply IH|].
      apply insert_position_HdRel; [exact Hh|].
      apply not_before_ge; auto using valid_number.
Qed.

Lemma insert_all : forall todo placed,
  Forall valid todo -> Forall valid placed -> Sorted in_order placed ->
  let out :=
    fold_left (fun placed i => insert_position before keys i placed)
      todo placed in
  Permutation out (todo ++ placed) /\ Sorted in_order out.
Proof.
  induction todo as [|i todo IH]; intros placed Ht Hp Hs; cbn [fold_left].
  - split; [apply Permutation_refl | exact Hs].
  - inversion Ht as [|? ? Hi Htodo]; subst.
    destruct (IH (insert_position before keys i placed)) as [Hperm Hsorted].
    + exact Htodo.
    + apply Forall_forall. intros j Hj.
      apply (Permutation_in _ (insert_position_Permutation i placed)) in Hj.
      destruct Hj as [<-|Hj]; [exact Hi|].
      rewrite Forall_forall in Hp. now apply Hp.
    + now apply insert_position_Sorted.
    + split; [|exact Hsorted].
      eapply perm_trans; [exact Hperm|].
      eapply perm_trans;
        [apply Permutation_app_head, insert_position_Permutation|].
      cbn [app]. apply Permutation_sym, Permutation_middle.
Qed.

Lemma argsort_insertion_ok : argsort_ok (argsort_insertion before) keys.
Proof.
  unfold argsort_ok, argsort_insertion.
  destruct (insert_all (seq 0 (List.length keys)) []) as [Hperm Hsorted].
  - apply Forall_forall. intros i Hi. apply in_seq in Hi.
    unfold valid. lia.
  - constructor.
  - constructor.
  - split.
    + now rewrite app_nil_r in Hperm.
    + apply map_Sorted with (R := fle) (f := fun i => nth i keys nan).
      exact Hsorted.
Qed.

End InsertionSorts.

Lemma argsort_stable_sorts : sorts argsort_stable.
Proof.
  intros keys Hnum. apply argsort_insertion_ok.
  - exact Hnum.
  - apply FloatOrder.ltb_fle.
  - apply FloatOrder.ltb_false_fle.
Qed.

(** *** Insertion behind equal keys is stable *)

Section InsertionStable.

Variable keys : list float.
Hypothesis keys_numbers : Forall not_nan keys.

Let key (i : nat) : float := nth i keys nan.
Let in_order (i j : nat) : Prop := fle (key i) (key j).
Let valid (i : nat) : Prop := i < List.length keys.





End InsertionStable.

(** ** Ranking *)

Lemma assign_distance_km_facility : forall df distances,
  List.length distances = List.length df ->
  map facility (assign_distance_km df distances) = df.
Proof.
  induction df as [|row df IH]; intros [|d distances] H;
    try discriminate; [reflexivity|].
  cbn [assign_distance_km map facility]. f_equal. apply IH.
  now injection H.
Qed.

Lemma zip3_length {A B C D} (f : A -> B -> C -> D) : forall xs ys zs,
  List.length ys = List.length xs -> List.length zs = List.length xs ->
  List.length (zip3 f xs ys zs) = List.length xs.
Proof.
  induction xs as [|x xs IH]; intros [|y ys] [|z zs] Hy Hz;
    try discriminate; [reflexivity|].
  cbn [zip3 List.length]. f_equal.
  apply IH; [now injection Hy | now injection Hz].
Qed.

Lemma haversine_vectorized_length rt lat lon latitudes longitudes :
  List.length longitudes = List.length latitudes ->
  List.length (haversine_vectorized rt lat lon latitudes longitudes)
  = List.length latitudes.
Proof.
  intros H. unfold haversine_vectorized.
  rewrite !length_map, zip3_length; rewrite !length_map; auto.
Qed.

(** Every filtered facility gets a distance, in the order of the frame. *)
Lemma with_distances_facility rt lat lon df :
  map facility (with_distances rt lat lon df) = df.
Proof.
  apply assign_distance_km_facility.
  rewrite haversine_vectorized_length; now rewrite !length_map.
Qed.

(** The [results] of a search whose sort meets its contract: the rows within
    the radius, in non-decreasing distance, cut at [max_res]. *)
Lemma results_run rt lat lon df radius max_res :
  sorts (argsort_quicksort rt) ->
  exists sorted,
    results rt lat lon df radius max_res = Some (head max_res sorted)
    /\ Permutation (query_within radius (with_distances rt lat lon df)) sorted
    /\ StronglySorted by_distance sorted.
Proof.
  intros Hsorts. unfold results. fold (with_distances rt lat lon df).
  pose proof (query_within_numbers radius (with_distances rt lat lon df))
    as Hnum.
  destruct (sort_values_run rt _ no_row Hnum) as [E [Hperm Hsorted]].
  { apply Hsorts. now rewrite Forall_map. }
  rewrite E. eexists. split; [reflexivity|]. split; assumption.
Qed.






(** ** Search *)

Lemma filtered_raises_re_error rt df t e n s a x :
  filtered rt df t e n s a = Raise x -> x = re_error.
Proof.
  rewrite filtered_selection. unfold selection.
  destruct (transport_pred rt t); [discriminate|]. congruence.
Qed.

(** C4: for a sort that meets its contract and a positive limit, a search
    whose filters return shows the notice "no stadium matches these
    criteria" exactly when the filters leave no row, shows the notice "no
    stadium found within the radius" exactly when they leave rows none of
    which is within the radius, and otherwise shows at least one row; in all
    three cases it returns a value.  The only search that raises is one
    whose transport criterion [re] refuses to compile. *)
Theorem search_outcomes (rt : Runtime) (stadiums : DataFrame)
  (lat lon : float) (t e n : string) (s : surface_arg) (a : string)
  (radius : float) (max_res : Z) :
  sorts (argsort_quicksort rt) ->
  (0 < max_res)%Z ->
  match filtered rt stadiums t e n s a with
  | Ok df_filtered =>
      (search rt stadiums lat lon t e n s a radius max_res
       = inr (NoMatch no_criteria_match)
       <-> df_filtered = [])
      /\ (search rt stadiums lat lon t e n s a radius max_res
          = inr (NoMatch out_of_radius)
          <-> df_filtered <> []
              /\ Forall (fun r => (distance_km r <=? radius) = false)
                   (with_distances rt lat lon df_filtered))
      /\ (exists o,
            search rt stadiums lat lon t e n s a radius max_res = inr o)
      /\ (forall rows,
            search rt stadiums lat lon t e n s a radius max_res
            = inr (Found rows) ->
            rows <> [])
  | Raise x =>
      x = re_error
      /\ search rt stadiums lat lon t e n s a radius max_res
         = inl (FilterRaised re_error)
  end.
Proof.
  intros Hsorts Hmax. unfold search.
  destruct (filtered rt stadiums t e n s a) as [df|x] eqn:E.
  2:{ apply filtered_raises_re_error in E. subst x. now split. }
  destruct df as [|row df]; cbn [empty].
  { repeat split; try discriminate; eauto. intros [H _]. now elim H. }
  destruct (results_run rt lat lon (row :: df) radius max_res Hsorts)
    as [sorted [Eres [Hperm _]]].
  rewrite Eres. rewrite head_firstn by lia.
  assert (Hcut : sorted = []
                 <-> Forall (fun r => (distance_km r <=? radius) = false)
                       (with_distances rt lat lon (row :: df))).
  { rewrite <- filter_nil_Forall. fold (query_within radius
      (with_distances rt lat lon (row :: df))). split.
    - intros ->. now apply Permutation_sym, Permutation_nil in Hperm.
    - intros H. rewrite H in Hperm. now apply Permutation_nil in Hperm. }
  destruct sorted as [|r sorted].
  - rewrite firstn_nil. cbn [empty]. repeat split; try discriminate; eauto.
    now apply Hcut.
  - destruct (Z.to_nat max_res) as [|k] eqn:Ek; [lia|].
    cbn [firstn empty]. repeat split; try discriminate; eauto.
    + intros [_ H]. apply Hcut in H. discriminate.
    + intros rows H. injection H as <-. discriminate.
Qed.

Lemma search_outcomes_witness :
  sorts (argsort_quicksort example_runtime)
  /\ (0 < 5)%Z
  /\ (search example_runtime example_stadiums 48.875 2.375 "Avion"
        no_preference no_preference (SurfaceStr no_preference) no_preference
        10 5
      = inr (NoMatch no_criteria_match)
      <-> @nil Row = [])
  /\ search example_runtime example_stadiums 43 5 "Bus"
       no_preference no_preference (SurfaceStr no_preference) no_preference
       10 5
     = inr (NoMatch out_of_radius).
Proof.
  assert (H1 : sorts (argsort_quicksort example_runtime))
    by exact argsort_stable_sorts.
  assert (H2 : (0 < 5)%Z) by reflexivity.
  split; [exact H1|]. split; [exact H2|]. split.
  - exact (proj1 (search_outcomes example_runtime example_stadiums
                    48.875 2.375 "Avion" no_preference no_preference
                    (SurfaceStr no_preference) no_preference 10 5 H1 H2)).
  - vm_compute. reflexivity.
Defined.

(** ** Arithmetic of binary64 numbers *)

Module FloatArith.

Local Open Scope Z_scope.

(** The number of binary digits of a mantissa. *)
Lemma digits2_pos_size p : digits2_pos p = Pos.size p.
Proof. induction p; simpl; congruence. Qed.

Lemma digits2_pos_gt p : Z.pos p < 2 ^ Z.pos (digits2_pos p).
Proof.
  rewrite digits2_pos_size. pose proof (Pos.size_gt p) as H.
  rewrite <- Pos2Z.inj_pow. lia.
Qed.

Lemma digits2_pos_le p : 2 ^ Z.pos (digits2_pos p) <= 2 * Z.pos p.
Proof.
  rewrite digits2_pos_size. pose proof (Pos.size_le p) as H.
  rewrite <- Pos2Z.inj_pow. lia.
Qed.

(** [m < 2 ^ d] bounds the digits of a non-negative [m] by [d]. *)
Lemma Zdigits2_bound m d : 0 <= m < 2 ^ d -> 0 <= d -> Zdigits2 m <= d.
Proof.
  intros [Hm Hlt] Hd. destruct m as [|p|p]; simpl; try lia.
  pose proof (digits2_pos_le p) as Hle.
  destruct (Z.le_gt_cases (Z.pos (digits2_pos p)) d) as [H|H]; [exact H|].
  assert (2 ^ (d + 1) <= 2 ^ Z.pos (digits2_pos p))
    by (apply Z.pow_le_mono_r; lia).
  rewrite Z.pow_add_r in * by lia. lia.
Qed.

Lemma Zdigits2_gt m : 0 <= m -> m < 2 ^ Zdigits2 m.
Proof.
  intros Hm. destruct m as [|p|p]; simpl; try lia. apply digits2_pos_gt.
Qed.


(** Shifting a non-negative mantissa right keeps it non-negative and does
    not make it larger. *)
Lemma shr_1_bound mrs M : 0 <= shr_m mrs <= M -> 0 <= shr_m (shr_1 mrs) <= M.
Proof.
  destruct mrs as [m r s]. simpl. destruct m as [|[p|p|]|p]; simpl; lia.
Qed.

Lemma iter_pos_invariant {A} (f : A -> A) (P : A -> Prop) :
  (forall x, P x -> P (f x)) -> forall n x, P x -> P (iter_pos f n x).
Proof.
  intros Hf. induction n as [n IH|n IH|]; intros x Hx; simpl; auto.
Qed.

Lemma shr_bound mrs e n M :
  0 <= shr_m mrs <= M ->
  0 <= shr_m (fst (shr mrs e n)) <= M
  /\ snd (shr mrs e n) = e + Z.max n 0.
Proof.
  intros H. destruct n as [|p|p]; simpl; try (split; [exact H | lia]).
  split; [|lia].
  apply (iter_pos_invariant shr_1 (fun x => 0 <= shr_m x <= M)); [|exact H].
  intros x. apply shr_1_bound.
Qed.

Lemma shr_m_record_of_loc m l : shr_m (shr_record_of_loc m l) = m.
Proof. destruct l as [|[]]; reflexivity. Qed.

Lemma shr_fexp_bound m e l d :
  0 <= m -> Zdigits2 m <= d ->
  0 <= shr_m (fst (shr_fexp prec emax m e l)) <= m
  /\ snd (shr_fexp prec emax m e l)
     <= Z.max e (Z.max (d + e - prec) (SpecFloat.emin prec emax)).
Proof.
  intros Hm Hd. unfold shr_fexp.
  destruct (shr_bound (shr_record_of_loc m l) e
              (fexp prec emax (Zdigits2 m + e) - e) m) as [Hb He].
  { rewrite shr_m_record_of_loc. lia. }
  split; [exact Hb|]. rewrite He. unfold fexp. lia.
Qed.

Lemma round_nearest_even_bound m l :
  0 <= m -> 0 <= round_nearest_even m l <= m + 1.
Proof.
  intros Hm. destruct l as [|[]]; simpl; try lia.
  destruct (Z.even m); lia.
Qed.

(** Rounding a product of mantissas of at most 53 digits at an exponent that
    is not positive neither overflows nor fails. *)
Lemma binary_round_aux_finite s m e :
  0 < m -> Zdigits2 m <= 106 -> e <= 0 ->
  binary_round_aux prec emax s m e loc_Exact = S754_zero s
  \/ exists m' e', binary_round_aux prec emax s m e loc_Exact
                   = S754_finite s m' e'.
Proof.
  intros Hm Hd He. unfold binary_round_aux.
  destruct (shr_fexp_bound m e loc_Exact 106) as [Hm1 He1]; [lia | exact Hd|].
  destruct (shr_fexp prec emax m e loc_Exact) as [mrs1 e1].
  cbn [fst snd] in Hm1, He1.
  pose proof (round_nearest_even_bound (shr_m mrs1)
                (loc_of_shr_record mrs1) (proj1 Hm1)) as Hr.
  set (m1 := round_nearest_even (shr_m mrs1) (loc_of_shr_record mrs1)) in *.
  assert (Hd1 : Zdigits2 m1 <= 107).
  { apply Zdigits2_bound; [|lia]. split; [lia|].
    pose proof (Zdigits2_gt m ltac:(lia)) as Hgt.
    assert (2 ^ Zdigits2 m <= 2 ^ 106)
      by (apply Z.pow_le_mono_r; [lia | exact Hd]).
    change (2 ^ 107) with (2 * 2 ^ 106). lia. }
  destruct (shr_fexp_bound m1 e1 loc_Exact 107) as [Hm2 He2];
    [lia | exact Hd1|].
  destruct (shr_fexp prec emax m1 e1 loc_Exact) as [mrs2 e2].
  cbn [fst snd] in Hm2, He2.
  assert (He2' : e2 <= emax - prec).
  { unfold SpecFloat.emin, prec, emax in *. lia. }
  destruct (shr_m mrs2) as [|p|p]; [now left | right | lia].
  apply Z.leb_le in He2'. rewrite He2'. now exists p, e2.
Qed.


Lemma product_digits (mx my : positive) :
  Zdigits2 (Z.pos mx) <= 53 -> Zdigits2 (Z.pos my) <= 53 ->
  Zdigits2 (Z.pos (mx * my)) <= 106.
Proof.
  intros Hx Hy. apply Zdigits2_bound; [|lia]. split; [lia|].
  pose proof (Zdigits2_gt (Z.pos mx) ltac:(lia)) as Gx.
  pose proof (Zdigits2_gt (Z.pos my) ltac:(lia)) as Gy.
  assert (2 ^ Zdigits2 (Z.pos mx) <= 2 ^ 53)
    by (apply Z.pow_le_mono_r; lia).
  assert (2 ^ Zdigits2 (Z.pos my) <= 2 ^ 53)
    by (apply Z.pow_le_mono_r; lia).
  change (2 ^ 106) with (2 ^ 53 * 2 ^ 53). rewrite Pos2Z.inj_mul. nia.
Qed.

(** The product of two small numbers is zero or finite, with the sign of
    the product. *)
Lemma SFmul_small (E F : Z) (x y : spec_float) :
  small E x -> small F y -> E + F <= 0 ->
  match SFmul prec emax x y with
  | S754_zero s | S754_finite s _ _ =>
      s = xorb (SFsign x) (SFsign y)
  | _ => False
  end.
Proof.
  destruct x as [sx|sx| |sx mx ex], y as [sy|sy| |sy my ey];
    cbn [small SFmul SFsign]; try tauto.
  intros [Hdx Hex] [Hdy Hey] HEF.
  destruct (binary_round_aux_finite (xorb sx sy) (Z.pos (mx * my)) (ex + ey))
    as [->|[m' [e' ->]]]; try reflexivity; try lia.
  now apply product_digits.
Qed.

(** A number of a float is valid: its mantissa has at most 53 digits. *)
Lemma valid_digits m e :
  bounded prec emax m e = true -> Zdigits2 (Z.pos m) <= 53.
Proof.
  unfold bounded, canonical_mantissa, fexp. intros H.
  apply andb_true_iff in H as [H _]. apply Z.eqb_eq in H.
  cbn [Zdigits2]. unfold prec in *. lia.
Qed.

(** A valid number between [-b] and [b] has an exponent of at most the one
    of [b]. *)
Lemma between_small (mb : positive) (eb : Z) (x : spec_float) :
  valid_binary x = true ->
  SFleb (S754_finite true mb eb) x = true ->
  SFleb x (S754_finite false mb eb) = true ->
  small eb x.
Proof.
  unfold SFleb, valid_binary.
  destruct x as [[]|[]| |[] m e];
    cbn [SFcompare small SpecFloat.valid_binary]; intros Hv Hlo Hhi;
    try discriminate; try exact I;
    (split; [now apply valid_digits with (e := e)|]).
  - destruct (Z.compare_spec eb e); try lia; discriminate.
  - destruct (Z.compare_spec e eb); try lia; discriminate.
Qed.

Local Open Scope float_scope.

Lemma float_between_small (b x : float) (mb : positive) (eb : Z) :
  Prim2SF b = S754_finite false mb eb ->
  fle (- b) x -> fle x b -> small eb (Prim2SF x).
Proof.
  unfold fle. rewrite !FloatAxioms.leb_spec, FloatAxioms.opp_spec.
  intros ->. cbn [SFopp negb]. apply between_small, Prim2SF_valid.
Qed.

(** A number that is zero or finite, minus itself, is [+0]. *)
Lemma sub_self (x : float) (E : Z) : small E (Prim2SF x) -> x - x = 0.
Proof.
  intros H. apply Prim2SF_inj. rewrite FloatAxioms.sub_spec.
  destruct (Prim2SF x) as [[]|[]| |s m e]; cbn [small] in H;
    try contradiction; try reflexivity.
  unfold SF64sub, SFsub. now rewrite Z.sub_diag.
Qed.

(** The product of small numbers is small enough to be one. *)
Lemma mul_small (x y : float) (E F : Z) :
  small E (Prim2SF x) -> small F (Prim2SF y) -> (E + F <= 0)%Z ->
  exists G, small G (Prim2SF (x * y)).
Proof.
  intros Hx Hy HEF. rewrite FloatAxioms.mul_spec.
  pose proof (SFmul_small E F _ _ Hx Hy HEF) as H. unfold SF64mul.
  destruct (SFmul prec emax (Prim2SF x) (Prim2SF y)) as [s|s| |s m e] eqn:Em;
    try contradiction.
  - now exists 0%Z.
  - exists e. cbn [small]. split; [|lia].
    apply valid_digits with (e := e).
    pose proof (Prim2SF_valid (x * y)) as Hv.
    rewrite FloatAxioms.mul_spec in Hv. unfold SF64mul in Hv.
    now rewrite Em in Hv.
Qed.

(** A small number times itself times [+0] is [+0]. *)
Lemma square_mul_zero (c : float) (E : Z) :
  small E (Prim2SF c) -> (E + E <= 0)%Z -> c * c * 0 = 0.
Proof.
  intros Hc HE. apply Prim2SF_inj.
  rewrite !FloatAxioms.mul_spec. unfold SF64mul.
  pose proof (SFmul_small E E _ _ Hc Hc HE) as H.
  destruct (SFmul prec emax (Prim2SF c) (Prim2SF c)) as [s|s| |s m e];
    try contradiction; rewrite H, xorb_nilpotent; reflexivity.
Qed.

End FloatArith.

(** ** The distance of a point to itself *)

Lemma radians_small (x b : float) (mb : positive) (eb : Z) :
  Prim2SF b = S754_finite false mb eb ->
  (eb <= 58)%Z ->
  fle (- b) x -> fle x b ->
  exists G, small G (Prim2SF (radians x)).
Proof.
  intros Hb He Hlo Hhi. unfold radians.
  apply FloatArith.mul_small with (E := eb) (F := (-58)%Z).
  - exact (FloatArith.float_between_small b x mb eb Hb Hlo Hhi).
  - vm_compute. split; discriminate.
  - lia.
Qed.

#[local] Set Warnings "-inexact-float".

(** C8: for a reference point with latitude in [-90, 90] and longitude in
    [-180, 180] degrees, the distance computed from the point to itself is
    the number [+0]: it is within [1e-9] km of zero and it is not a NaN.
    This holds on every runtime whose sine and arc tangent are exact at
    zero ([sin 0 = 0], [arctan2 0 1 = 0]) and whose cosine of the latitude
    lies in [-1, 1]; no accuracy is asked of them elsewhere. *)
Theorem self_distance_is_zero (rt : Runtime) (lat lon : float) :
  fle (-90) lat -> fle lat 90 ->
  fle (-180) lon -> fle lon 180 ->
  np_sin rt 0 = 0 ->
  np_arctan2 rt 0 1 = 0 ->
  fle (-1) (np_cos rt (radians lat)) -> fle (np_cos rt (radians lat)) 1 ->
  exists d,
    haversine_vectorized rt lat lon [lat] [lon] = [d]
    /\ d = 0
    /\ (abs d <=? 1e-9) = true
    /\ is_nan d = false.
Proof.
  intros Hlat1 Hlat2 Hlon1 Hlon2 Hsin Hatan Hcos1 Hcos2.
  exists 0. split; [|repeat split].
  unfold haversine_vectorized. cbn [map zip3].
  destruct (radians_small lat 90 _ _ eq_refl ltac:(discriminate) Hlat1 Hlat2)
    as [G1 Hrlat].
  destruct (radians_small lon 180 _ _ eq_refl ltac:(discriminate) Hlon1 Hlon2)
    as [G2 Hrlon].
  rewrite (FloatArith.sub_self _ _ Hrlat), (FloatArith.sub_self _ _ Hrlon).
  change (0 / 2) with 0. rewrite Hsin. change (square 0) with 0.
  rewrite (FloatArith.square_mul_zero (np_cos rt (radians lat)) (-52)).
  - change (0 + 0) with 0. change (sqrt 0) with 0.
    change (1 - 0) with 1. change (sqrt 1) with 1.
    rewrite Hatan. reflexivity.
  - exact (FloatArith.float_between_small 1 _ _ _ eq_refl Hcos1 Hcos2).
  - discriminate.
Qed.

Lemma self_distance_is_zero_witness :
  fle (-90) 48.875 /\ fle 48.875 90
  /\ fle (-180) 2.375 /\ fle 2.375 180
  /\ np_sin example_runtime 0 = 0
  /\ np_arctan2 example_runtime 0 1 = 0
  /\ fle (-1) (np_cos example_runtime (radians 48.875))
  /\ fle (np_cos example_runtime (radians 48.875)) 1
  /\ exists d,
       haversine_vectorized example_runtime 48.875 2.375 [48.875] [2.375]
       = [d]
       /\ d = 0
       /\ (abs d <=? 1e-9) = true
       /\ is_nan d = false.
Proof.
  assert (H1 : fle (-90) 48.875) by reflexivity.
  assert (H2 : fle 48.875 90) by reflexivity.
  assert (H3 : fle (-180) 2.375) by reflexivity.
  assert (H4 : fle 2.375 180) by reflexivity.
  assert (H5 : np_sin example_runtime 0 = 0) by reflexivity.
  assert (H6 : np_arctan2 example_runtime 0 1 = 0) by reflexivity.
  assert (H7 : fle (-1) (np_cos example_runtime (radians 48.875)))
    by reflexivity.
  assert (H8 : fle (np_cos example_runtime (radians 48.875)) 1)
    by reflexivity.
  repeat (split; [assumption|]).
  exact (self_distance_is_zero example_runtime 48.875 2.375
           H1 H2 H3 H4 H5 H6 H7 H8).
Defined.

(** * Further properties of the filters *)

Lemma filter_conj {A} (p q : A -> bool) (l : list A) :
  filter q (filter p l) = filter (fun x => p x && q x) l.
Proof.
  induction l as [|x l IH]; [reflexivity|]. cbn [filter].
  destruct (p x); cbn [filter andb]; now rewrite IH.
Qed.

Lemma filter_implies_Subseq {A} (p q : A -> bool) (l : list A) :
  (forall x, p x = true -> q x = true) -> Subseq (filter p l) (filter q l).
Proof.
  intros H. induction l as [|x l IH]; cbn [filter]; [constructor|].
  destruct (p x) eqn:Ep.
  - rewrite (H x Ep). now constructor.
  - destruct (q x); [now constructor | exact IH].
Qed.

(** A call keeps the rows that pass every criterion. *)
Lemma selection_row_passes rt t e n s a df :
  selection rt t e n s a df
  = match transport_pred rt t with
    | Some p => Ok (filter (row_passes p e n s a) df)
    | None => Raise re_error
    end.
Proof.
  unfold selection. destruct (transport_pred rt t) as [p|]; [|reflexivity].
  rewrite !filter_conj. f_equal. apply filter_ext. intros row.
  unfold row_passes. now rewrite !andb_assoc.
Qed.

Lemma equality_pred_specified col v row :
  v <> no_preference -> equality_pred col v row = cell_eqb (col row) v.
Proof.
  intros H. unfold equality_pred.
  destruct (String.eqb_spec v no_preference); [contradiction | reflexivity].
Qed.

Lemma cell_eqb_eq (c : cell) (v : string) : cell_eqb c v = true <-> c = Text v.
Proof.
  destruct c as [|x]; cbn [cell_eqb]; split; try discriminate.
  - intros H. apply String.eqb_eq in H. now subst.
  - intros H. injection H as ->. apply String.eqb_refl.
Qed.

(** One exact-match criterion, read against the call without it. *)
Lemma equality_criterion rt df col v t e n s a t' e' n' s' a' :
  v <> no_preference ->
  (forall p row,
     row_passes p e n s a row
     = row_passes p e' n' s' a' row && cell_eqb (col row) v) ->
  t = t' ->
  match filtered rt df t' e' n' s' a', filtered rt df t e n s a with
  | Ok others, Ok out =>
      out = filter (fun row => cell_eqb (col row) v) others
      /\ (forall row, In row out <-> In row others /\ col row = Text v)
      /\ (forall row, col row = NA -> ~ In row out)
  | Raise x, Raise y => x = y
  | _, _ => False
  end.
Proof.
  intros Hv Hrow <-. rewrite !filtered_selection, !selection_row_passes.
  destruct (transport_pred rt t) as [p|]; [|reflexivity].
  assert (E : filter (row_passes p e n s a) df
              = filter (fun row => cell_eqb (col row) v)
                  (filter (row_passes p e' n' s' a') df)).
  { rewrite filter_conj. apply filter_ext. intros row. apply Hrow. }
  split; [exact E|]. split.
  - intros row. rewrite E, filter_In, cell_eqb_eq. tauto.
  - intros row Hna. rewrite E, filter_In, cell_eqb_eq, Hna.
    intros [_ H]. discriminate.
Qed.

(** X1: the type, environment and activity criteria are exact matches, each
    on its own and whatever the other criteria are ("No preference"
    included).  A value other than "No preference" keeps, among the rows the
    other criteria keep, exactly those whose column holds that very text
    (same case, same accents); a row whose cell is missing is dropped. *)
Theorem exact_match_criteria (rt : Runtime) (df : DataFrame)
  (t e n : string) (s : surface_arg) (a : string) :
  (e <> no_preference ->
   match filtered rt df t no_preference n s a, filtered rt df t e n s a with
   | Ok others, Ok out =>
       out = filter (fun row => cell_eqb (equip_type_name row) e) others
       /\ (forall row,
             In row out <-> In row others /\ equip_type_name row = Text e)
       /\ (forall row, equip_type_name row = NA -> ~ In row out)
   | Raise x, Raise y => x = y
   | _, _ => False
   end)
  /\ (n <> no_preference ->
      match filtered rt df t e no_preference s a, filtered rt df t e n s a with
      | Ok others, Ok out =>
          out = filter (fun row => cell_eqb (equip_nature row) n) others
          /\ (forall row,
                In row out <-> In row others /\ equip_nature row = Text n)
          /\ (forall row, equip_nature row = NA -> ~ In row out)
      | Raise x, Raise y => x = y
      | _, _ => False
      end)
  /\ (a <> no_preference ->
      match filtered rt df t e n s no_preference, filtered rt df t e n s a with
      | Ok others, Ok out =>
          out = filter (fun row => cell_eqb (aps_name row) a) others
          /\ (forall row,
                In row out <-> In row others /\ aps_name row = Text a)
          /\ (forall row, aps_name row = NA -> ~ In row out)
      | Raise x, Raise y => x = y
      | _, _ => False
      end).
Proof.
  split; [|split].
  - intros He.
    apply equality_criterion; [exact He | | reflexivity].
    intros p row. unfold row_passes.
    rewrite (equality_pred_specified equip_type_name e row He).
    change (equality_pred equip_type_name no_preference row) with true.
    destruct (p row), (cell_eqb (equip_type_name row) e),
      (equality_pred equip_nature n row), (equality_pred aps_name a row),
      (surface_pred s row); reflexivity.
  - intros Hn.
    apply equality_criterion; [exact Hn | | reflexivity].
    intros p row. unfold row_passes.
    rewrite (equality_pred_specified equip_nature n row Hn).
    change (equality_pred equip_nature no_preference row) with true.
    destruct (p row), (cell_eqb (equip_nature row) n),
      (equality_pred equip_type_name e row), (equality_pred aps_name a row),
      (surface_pred s row); reflexivity.
  - intros Ha.
    apply equality_criterion; [exact Ha | | reflexivity].
    intros p row. unfold row_passes.
    rewrite (equality_pred_specified aps_name a row Ha).
    change (equality_pred aps_name no_preference row) with true.
    destruct (p row), (cell_eqb (aps_name row) a),
      (equality_pred equip_type_name e row),
      (equality_pred equip_nature n row), (surface_pred s row); reflexivity.
Qed.

Lemma exact_match_criteria_witness :
  "Multisports/City-stades" <> no_preference
  /\ "Découvert" <> no_preference
  /\ "Football / Football en salle (Futsal)" <> no_preference
  /\ (forall row,
        In row [salle_centre] <->
        In row mixed_stadiums
        /\ equip_type_name row = Text "Multisports/City-stades")
  /\ (forall row,
        In row [stade_sud; stade_nord; stade_est] <->
        In row mixed_stadiums /\ equip_nature row = Text "Découvert")
  /\ (forall row,
        In row mixed_stadiums <->
        In row mixed_stadiums
        /\ aps_name row = Text "Football / Football en salle (Futsal)").
Proof.
  assert (H1 : "Multisports/City-stades" <> no_preference) by discriminate.
  assert (H2 : "Découvert" <> no_preference) by discriminate.
  assert (H3 : "Football / Football en salle (Futsal)" <> no_preference)
    by discriminate.
  split; [exact H1|]. split; [exact H2|]. split; [exact H3|].
  split; [|split].
  - exact (proj1 (proj2
             (proj1 (exact_match_criteria example_runtime mixed_stadiums
                       no_preference "Multisports/City-stades" no_preference
                       (SurfaceStr no_preference) no_preference) H1))).
  - exact (proj1 (proj2
             (proj1 (proj2
                       (exact_match_criteria example_runtime mixed_stadiums
                          no_preference no_preference "Découvert"
                          (SurfaceStr no_preference) no_preference)) H2))).
  - exact (proj1 (proj2
             (proj2 (proj2
                       (exact_match_criteria example_runtime mixed_stadiums
                          no_preference no_preference no_preference
                          (SurfaceStr no_preference)
                          "Football / Football en salle (Futsal)")) H3))).
Defined.

(** X2: the surface filter runs only for a non-empty list.  A surface given
    as a text, whatever the text, or as an empty list asks nothing: the call
    returns what it returns for "No preference". *)
Theorem surface_text_is_ignored (rt : Runtime) (df : DataFrame)
  (t e n a : string) (x : string) :
  filtered rt df t e n (SurfaceStr x) a
  = filtered rt df t e n (SurfaceStr no_preference) a
  /\ filtered rt df t e n (SurfaceList []) a
     = filtered rt df t e n (SurfaceStr no_preference) a.
Proof.
  rewrite !filtered_selection, !selection_row_passes.
  destruct (transport_pred rt t) as [p|]; [|now split].
  split; f_equal; apply filter_ext; intros row; unfold row_passes;
    f_equal; unfold surface_pred, surface_active; cbn [isinstance_list];
    now rewrite ?andb_false_r.
Qed.

(** X3: filtering is idempotent: a second call with the same criteria on the
    frame a call returned returns the same rows. *)
Theorem filtering_twice_changes_nothing (rt : Runtime) (df : DataFrame)
  (t e n : string) (s : surface_arg) (a : string) :
  match filtered rt df t e n s a with
  | Ok out => filtered rt out t e n s a = Ok out
  | Raise x => True
  end.
Proof.
  rewrite filtered_selection, selection_row_passes.
  destruct (transport_pred rt t) as [p|] eqn:E; [|exact I].
  rewrite filtered_selection, selection_row_passes, E.
  now rewrite filter_idem.
Qed.

(** X4: calls compose as their criteria do.  Filtering by [c2] the frame
    that filtering by [c1] returned gives the same rows as the two calls in
    the other order, and these are the rows common to the two frames
    obtained from the input separately. *)
Theorem filters_commute (rt : Runtime) (df : DataFrame) (c1 c2 : Criteria) :
  match filter_by rt df c1, filter_by rt df c2 with
  | Ok by1, Ok by2 =>
      filter_by rt by1 c2 = filter_by rt by2 c1
      /\ filter_by rt by1 c2 = Ok (intersect by1 by2)
  | _, _ => True
  end.
Proof.
  unfold filter_by. rewrite !filtered_selection, !selection_row_passes.
  destruct (transport_pred rt (transport c1)) as [p1|] eqn:E1; [|exact I].
  destruct (transport_pred rt (transport c2)) as [p2|] eqn:E2; [|exact I].
  rewrite !filtered_selection, !selection_row_passes, E1, E2.
  split.
  - f_equal. apply filter_comm.
  - f_equal. symmetry. apply intersect_filter.
Qed.

(** X5: a criterion only removes rows.  The rows a call returns are a
    subsequence of what it returns when any of its criteria are set back to
    "No preference", and relaxing criteria never makes a call raise. *)
Theorem relaxing_criteria_keeps_rows (rt : Runtime) (df : DataFrame)
  (c : Criteria) (keep : list criterion) :
  match filter_by rt df c with
  | Ok out =>
      exists more,
        filter_by rt df (restrict keep c) = Ok more /\ Subseq out more
  | Raise x => True
  end.
Proof.
  unfold filter_by. rewrite !filtered_selection, !selection_row_passes.
  destruct (transport_pred rt (transport c)) as [p|] eqn:E; [|exact I].
  unfold restrict. cbn [transport equip_type nature surface activity].
  assert (Ht : exists p',
             transport_pred rt
               (if existsb (criterion_eqb ByTransport) keep
                then transport c else no_preference) = Some p'
             /\ forall row, p row = true -> p' row = true).
  { destruct (existsb (criterion_eqb ByTransport) keep).
    - exists p. now split.
    - exists (fun _ => true). now split. }
  destruct Ht as [p' [-> Hp]].
  eexists. split; [reflexivity|].
  apply filter_implies_Subseq. intros row. unfold row_passes.
  rewrite !andb_true_iff. intros [[[[H1 H2] H3] H4] H5].
  repeat split.
  - now apply Hp.
  - destruct (existsb (criterion_eqb ByType) keep); [exact H2 | reflexivity].
  - destruct (existsb (criterion_eqb ByNature) keep); [exact H3 | reflexivity].
  - destruct (existsb (criterion_eqb ByActivity) keep);
      [exact H4 | reflexivity].
  - destruct (existsb (criterion_eqb BySurface) keep);
      [exact H5 | reflexivity].
Qed.

(** * Further properties of the ranking *)

Lemma take_In {A} (xs : list A) : forall positions out,
  take positions xs = Some out -> forall x, In x out -> In x xs.
Proof.
  induction positions as [|i rest IH]; cbn [take]; intros out H x Hx.
  - injection H as <-. contradiction.
  - destruct (nth_error xs i) as [y|] eqn:E; [|discriminate].
    destruct (take rest xs) as [out'|]; [|discriminate].
    injection H as <-. destruct Hx as [<-|Hx].
    + eapply nth_error_In, E.
    + now apply (IH out').
Qed.

(** Whatever positions the sort gives, it returns rows of its input. *)
Lemma sort_values_In rt rows sorted :
  sort_values rt rows = Some sorted -> forall r, In r sorted -> In r rows.
Proof.
  unfold sort_values. destruct (nargsort rt (map distance_km rows));
    [|discriminate].
  apply take_In.
Qed.

Lemma head_Subseq {A} (n : Z) (xs : list A) : Subseq (head n xs) xs.
Proof. unfold head. destruct (n <? 0)%Z; apply firstn_Subseq. Qed.

Lemma assign_distance_km_In : forall df distances r,
  In r (assign_distance_km df distances) -> In (facility r) df.
Proof.
  induction df as [|row df IH]; intros [|d distances] r H;
    cbn [assign_distance_km] in H; try contradiction.
  destruct H as [<-|H]; [now left | right; eauto].
Qed.

Lemma is_nan_leb_false (x radius : float) :
  is_nan radius = true -> (x <=? radius) = false.
Proof.
  intros H. rewrite FloatAxioms.leb_spec.
  assert (E : Prim2SF radius = S754_nan).
  { destruct (Prim2SF radius) as [s|s| |s m e] eqn:E; [| |reflexivity|];
      exfalso; unfold is_nan in H; rewrite FloatAxioms.eqb_spec, E in H;
      rewrite FloatOrder.SFeqb_refl in H; discriminate. }
  rewrite E. unfold SFleb. destruct (Prim2SF x); reflexivity.
Qed.

(** Whatever the sort does, the ranked rows are rows within the radius. *)
Lemma results_In_query rt lat lon df radius max_res rows :
  results rt lat lon df radius max_res = Some rows ->
  forall r, In r rows ->
    In r (query_within radius (with_distances rt lat lon df)).
Proof.
  unfold results. fold (with_distances rt lat lon df).
  destruct (sort_values rt (query_within radius (with_distances rt lat lon df)))
    as [sorted|] eqn:E; [|discriminate].
  intros H r Hr. injection H as <-. apply (sort_values_In _ _ _ E).
  exact (Subseq_In _ _ (head_Subseq max_res sorted) r Hr).
Qed.

(** X6: whatever the sorting algorithm does, a search never ranks a row it
    should not: every row of [results] is a filtered facility with the
    distance computed for it, that distance is a number and is within the
    radius.  With a radius that is not a number no row is ranked. *)
Theorem results_only_within_radius (rt : Runtime) (lat lon : float)
  (df : DataFrame) (radius : float) (max_res : Z) :
  match results rt lat lon df radius max_res with
  | Some rows =>
      (forall r, In r rows ->
         In r (with_distances rt lat lon df)
         /\ In (facility r) df
         /\ fle (distance_km r) radius
         /\ not_nan (distance_km r))
      /\ (is_nan radius = true -> rows = [])
  | None => True
  end.
Proof.
  destruct (results rt lat lon df radius max_res) as [rows|] eqn:E;
    [|exact I].
  pose proof (results_In_query rt lat lon df radius max_res rows E) as Hin.
  split.
  - intros r Hr. apply Hin, filter_In in Hr as [Hr Hle].
    repeat split; try assumption.
    + exact (assign_distance_km_In _ _ _ Hr).
    + exact (FloatOrder.fle_not_nan _ _ Hle).
  - intros Hnan. destruct rows as [|r rest]; [reflexivity|].
    exfalso. assert (Hr : In r (r :: rest)) by now left.
    apply Hin, filter_In in Hr as [_ Hle].
    rewrite (is_nan_leb_false _ _ Hnan) in Hle. discriminate.
Qed.

(** X7: with a sort that meets its contract and a limit that is not
    negative, a search ranks exactly as many rows as the limit allows:
    [max_res] of them, or all the filtered facilities within the radius when
    these are fewer. *)
Theorem results_length (rt : Runtime) (lat lon : float) (df : DataFrame)
  (radius : float) (max_res : Z) :
  sorts (argsort_quicksort rt) ->
  (0 <= max_res)%Z ->
  exists rows,
    results rt lat lon df radius max_res = Some rows
    /\ List.length rows
       = Nat.min (Z.to_nat max_res)
           (List.length (query_within radius (with_distances rt lat lon df))).
Proof.
  intros Hsorts Hmax.
  destruct (results_run rt lat lon df radius max_res Hsorts)
    as [sorted [E [Hperm _]]].
  exists (head max_res sorted). split; [exact E|].
  rewrite head_firstn by exact Hmax. rewrite length_firstn.
  now rewrite (Permutation_length Hperm).
Qed.

Lemma results_length_witness :
  sorts (argsort_quicksort example_runtime)
  /\ (0 <= 1)%Z
  /\ exists rows,
       results example_runtime 48.875 2.375 example_stadiums 10 1 = Some rows
       /\ List.length rows
          = Nat.min (Z.to_nat 1)
              (List.length
                 (query_within 10
                    (with_distances example_runtime 48.875 2.375
                       example_stadiums))).
Proof.
  assert (H1 : sorts (argsort_quicksort example_runtime))
    by exact argsort_stable_sorts.
  assert (H2 : (0 <= 1)%Z) by discriminate.
  split; [exact H1|]. split; [exact H2|].
  exact (results_length example_runtime 48.875 2.375 example_stadiums 10 1
           H1 H2).
Defined.

Lemma StronglySorted_app {A} (R : A -> A -> Prop) : forall l1 l2,
  StronglySorted R (l1 ++ l2) ->
  forall x y, In x l1 -> In y l2 -> R x y.
Proof.
  induction l1 as [|a l1 IH]; intros l2 H x y Hx Hy; [contradiction|].
  cbn [app] in H. inversion H as [|? ? Hs Hall]; subst.
  destruct Hx as [<-|Hx].
  - rewrite Forall_forall in Hall. apply Hall, in_or_app. now right.
  - now apply (IH l2).
Qed.

(** X8: the ranked rows are the nearest ones.  With a sort that meets its
    contract and a limit that is not negative, the filtered facilities within
    the radius split into the ranked rows and the rest, and no row of the
    rest is nearer than a ranked row. *)
Theorem results_are_the_nearest (rt : Runtime) (lat lon : float)
  (df : DataFrame) (radius : float) (max_res : Z) :
  sorts (argsort_quicksort rt) ->
  (0 <= max_res)%Z ->
  exists rows rest,
    results rt lat lon df radius max_res = Some rows
    /\ Permutation (query_within radius (with_distances rt lat lon df))
         (rows ++ rest)
    /\ (forall r s, In r rows -> In s rest -> by_distance r s).
Proof.
  intros Hsorts Hmax.
  destruct (results_run rt lat lon df radius max_res Hsorts)
    as [sorted [E [Hperm Hsorted]]].
  rewrite head_firstn in E by exact Hmax.
  exists (firstn (Z.to_nat max_res) sorted),
    (skipn (Z.to_nat max_res) sorted).
  split; [exact E|]. rewrite firstn_skipn. split; [exact Hperm|].
  apply StronglySorted_app. now rewrite firstn_skipn.
Qed.

Lemma results_are_the_nearest_witness :
  sorts (argsort_quicksort example_runtime)
  /\ (0 <= 1)%Z
  /\ exists rows rest,
       results example_runtime 48.875 2.375 example_stadiums 20 1 = Some rows
       /\ Permutation
            (query_within 20
               (with_distances example_runtime 48.875 2.375 example_stadiums))
            (rows ++ rest)
       /\ (forall r s, In r rows -> In s rest -> by_distance r s).
Proof.
  assert (H1 : sorts (argsort_quicksort example_runtime))
    by exact argsort_stable_sorts.
  assert (H2 : (0 <= 1)%Z) by discriminate.
  split; [exact H1|]. split; [exact H2|].
  exact (results_are_the_nearest example_runtime 48.875 2.375
           example_stadiums 20 1 H1 H2).
Defined.

(** X9: raising the limit only appends rows.  For limits [0 <= k <= k'] the
    rows ranked with limit [k] are the first [k] of the rows ranked with
    limit [k'], whatever the sorting algorithm. *)
Theorem raising_the_limit_appends (rt : Runtime) (lat lon : float)
  (df : DataFrame) (radius : float) (k k' : Z) :
  (0 <= k <= k')%Z ->
  match results rt lat lon df radius k', results rt lat lon df radius k with
  | Some more, Some rows => rows = firstn (Z.to_nat k) more
  | None, None => True
  | _, _ => False
  end.
Proof.
  intros Hk. unfold results.
  destruct (sort_values rt _) as [sorted|]; [|exact I].
  rewrite !head_firstn by lia. rewrite firstn_firstn. f_equal. lia.
Qed.

Lemma raising_the_limit_appends_witness :
  (0 <= 1 <= 5)%Z
  /\ results example_runtime 48.875 2.375 example_stadiums 20 1
     = option_map (firstn 1)
         (results example_runtime 48.875 2.375 example_stadiums 20 5).
Proof.
  assert (H : (0 <= 1 <= 5)%Z) by lia.
  split; [exact H|].
  pose proof (raising_the_limit_appends example_runtime 48.875 2.375
                example_stadiums 20 1 5 H) as P.
  destruct (results example_runtime 48.875 2.375 example_stadiums 20 5),
    (results example_runtime 48.875 2.375 example_stadiums 20 1);
    cbn [option_map]; try contradiction; [now rewrite P | reflexivity].
Defined.

(** X10: a negative limit does not limit, it cuts the tail: with a sort that
    meets its contract, [head] with [max_res < 0] returns the filtered
    facilities within the radius in distance order without the last
    [- max_res] of them. *)
Theorem negative_limit_drops_the_farthest (rt : Runtime) (lat lon : float)
  (df : DataFrame) (radius : float) (max_res : Z) :
  sorts (argsort_quicksort rt) ->
  (max_res < 0)%Z ->
  exists rows sorted,
    results rt lat lon df radius max_res = Some rows
    /\ Permutation (query_within radius (with_distances rt lat lon df)) sorted
    /\ StronglySorted by_distance sorted
    /\ rows = firstn (List.length sorted - Z.to_nat (- max_res)) sorted.
Proof.
  intros Hsorts Hneg.
  destruct (results_run rt lat lon df radius max_res Hsorts)
    as [sorted [E [Hperm Hsorted]]].
  exists (head max_res sorted), sorted.
  split; [exact E|]. split; [exact Hperm|]. split; [exact Hsorted|].
  unfold head. destruct (Z.ltb_spec max_res 0); [reflexivity | lia].
Qed.

Lemma negative_limit_drops_the_farthest_witness :
  sorts (argsort_quicksort example_runtime)
  /\ (-1 < 0)%Z
  /\ exists rows sorted,
       results example_runtime 48.875 2.375 example_stadiums 20 (-1)
       = Some rows
       /\ Permutation
            (query_within 20
               (with_distances example_runtime 48.875 2.375 example_stadiums))
            sorted
       /\ StronglySorted by_distance sorted
       /\ rows = firstn (List.length sorted - Z.to_nat (- -1)) sorted.
Proof.
  assert (H1 : sorts (argsort_quicksort example_runtime))
    by exact argsort_stable_sorts.
  assert (H2 : (-1 < 0)%Z) by reflexivity.
  split; [exact H1|]. split; [exact H2|].
  exact (negative_limit_drops_the_farthest example_runtime 48.875 2.375
           example_stadiums 20 (-1) H1 H2).
Defined.

(** * Further properties of the search *)

(** X11: with the limit at zero a search that has candidates always shows
    the notice "no stadium found within the radius", also when facilities
    are within it: the notice is decided on the rows left after [head]. *)
Theorem zero_limit_reports_out_of_radius (rt : Runtime)
  (stadiums : DataFrame) (lat lon : float) (t e n : string)
  (s : surface_arg) (a : string) (radius : float) (row : Row)
  (df : DataFrame) :
  sorts (argsort_quicksort rt) ->
  filtered rt stadiums t e n s a = Ok (row :: df) ->
  search rt stadiums lat lon t e n s a radius 0
  = inr (NoMatch out_of_radius).
Proof.
  intros Hsorts E. unfold search. rewrite E. cbn [empty].
  destruct (results_run rt lat lon (row :: df) radius 0 Hsorts)
    as [sorted [-> _]].
  reflexivity.
Qed.

Lemma zero_limit_reports_out_of_radius_witness :
  sorts (argsort_quicksort example_runtime)
  /\ filtered example_runtime example_stadiums no_preference no_preference
       no_preference (SurfaceStr no_preference) no_preference
     = Ok (stade_nord :: [stade_sud; stade_est; stade_ouest])
  /\ query_within 10
       (with_distances example_runtime 48.875 2.375 example_stadiums) <> []
  /\ search example_runtime example_stadiums 48.875 2.375 no_preference
       no_preference no_preference (SurfaceStr no_preference) no_preference
       10 0
     = inr (NoMatch out_of_radius).
Proof.
  assert (H1 : sorts (argsort_quicksort example_runtime))
    by exact argsort_stable_sorts.
  assert (H2 : filtered example_runtime example_stadiums no_preference
                 no_preference no_preference (SurfaceStr no_preference)
                 no_preference
               = Ok (stade_nord :: [stade_sud; stade_est; stade_ouest]))
    by reflexivity.
  split; [exact H1|]. split; [exact H2|].
  split; [vm_compute; discriminate|].
  exact (zero_limit_reports_out_of_radius example_runtime example_stadiums
           48.875 2.375 no_preference no_preference no_preference
           (SurfaceStr no_preference) no_preference 10 _ _ H1 H2).
Defined.

(** X12: a search shows only facilities it should.  Whatever the sorting
    algorithm, every row of a found result is a facility of the dataset that
    the filters keep, with the distance computed for it, within the radius;
    and a found result is never empty. *)
Theorem search_found_is_sound (rt : Runtime) (stadiums : DataFrame)
  (lat lon : float) (t e n : string) (s : surface_arg) (a : string)
  (radius : float) (max_res : Z) :
  match search rt stadiums lat lon t e n s a radius max_res with
  | inr (Found rows) =>
      rows <> []
      /\ exists df_filtered,
           filtered rt stadiums t e n s a = Ok df_filtered
           /\ forall r, In r rows ->
                In (facility r) stadiums
                /\ In (facility r) df_filtered
                /\ In r (with_distances rt lat lon df_filtered)
                /\ fle (distance_km r) radius
  | _ => True
  end.
Proof.
  unfold search.
  destruct (filtered rt stadiums t e n s a) as [df|x] eqn:E; [|exact I].
  destruct (empty df); [exact I|].
  destruct (results rt lat lon df radius max_res) as [rows|] eqn:Er;
    [|exact I].
  pose proof (results_In_query rt lat lon df radius max_res rows Er) as H.
  destruct rows as [|r0 rows]; cbn [empty]; [exact I|].
  split; [discriminate|]. exists df. split; [reflexivity|].
  intros r Hr. apply H, filter_In in Hr as [Hr Hle].
  pose proof (assign_distance_km_In _ _ _ Hr) as Hf.
  repeat split; try assumption.
  rewrite filtered_selection in E.
  exact (Subseq_In _ _ (selection_Subseq _ _ _ _ _ _ _ _ E) _ Hf).
Qed.

(** X13: a search misses nothing when the limit leaves room.  With a sort
    that meets its contract, if the filters return candidates, some are
    within the radius and they are no more than the limit, then the search
    finds exactly them. *)
Theorem search_finds_all_within_radius (rt : Runtime) (stadiums : DataFrame)
  (lat lon : float) (t e n : string) (s : surface_arg) (a : string)
  (radius : float) (max_res : Z) (df_filtered : DataFrame) :
  sorts (argsort_quicksort rt) ->
  filtered rt stadiums t e n s a = Ok df_filtered ->
  query_within radius (with_distances rt lat lon df_filtered) <> [] ->
  (Z.of_nat
     (List.length (query_within radius (with_distances rt lat lon df_filtered)))
   <= max_res)%Z ->
  exists rows,
    search rt stadiums lat lon t e n s a radius max_res = inr (Found rows)
    /\ Permutation (query_within radius (with_distances rt lat lon df_filtered))
         rows.
Proof.
  intros Hsorts E Hne Hroom. unfold search. rewrite E.
  destruct df_filtered as [|row df].
  { now elim Hne. }
  cbn [empty].
  destruct (results_run rt lat lon (row :: df) radius max_res Hsorts)
    as [sorted [-> [Hperm _]]].
  rewrite head_firstn by lia.
  rewrite firstn_all2 by (rewrite <- (Permutation_length Hperm); lia).
  exists sorted. split; [|exact Hperm].
  destruct sorted as [|r sorted]; [|reflexivity].
  apply Permutation_sym, Permutation_nil in Hperm. contradiction.
Qed.

Lemma search_finds_all_within_radius_witness :
  sorts (argsort_quicksort example_runtime)
  /\ filtered example_runtime example_stadiums no_preference no_preference
       no_preference (SurfaceStr no_preference) no_preference
     = Ok example_stadiums
  /\ exists rows,
       search example_runtime example_stadiums 48.875 2.375 no_preference
         no_preference no_preference (SurfaceStr no_preference)
         no_preference 20 5
       = inr (Found rows)
       /\ Permutation
            (query_within 20
               (with_distances example_runtime 48.875 2.375 example_stadiums))
            rows.
Proof.
  assert (H1 : sorts (argsort_quicksort example_runtime))
    by exact argsort_stable_sorts.
  assert (H2 : filtered example_runtime example_stadiums no_preference
                 no_preference no_preference (SurfaceStr no_preference)
                 no_preference
               = Ok example_stadiums) by reflexivity.
  split; [exact H1|]. split; [exact H2|].
  apply (search_finds_all_within_radius example_runtime example_stadiums
           48.875 2.375 no_preference no_preference no_preference
           (SurfaceStr no_preference) no_preference 20 5 example_stadiums
           H1 H2).
  - vm_compute. discriminate.
  - vm_compute. discriminate.
Defined.

(** * Further properties of the distances *)

Module FloatSign.

Local Open Scope float_scope.

(** Rounding does not look at the sign. *)
Lemma binary_round_aux_negb s m e l :
  binary_round_aux prec emax (negb s) m e l
  = SFopp (binary_round_aux prec emax s m e l).
Proof.
  unfold binary_round_aux.
  destruct (shr_fexp prec emax m e l) as [mrs1 e1].
  destruct (shr_fexp prec emax _ e1 loc_Exact) as [mrs2 e2].
  destruct (shr_m mrs2); try reflexivity.
  destruct (e2 <=? emax - prec)%Z; reflexivity.
Qed.

Lemma binary_round_true m e :
  binary_round prec emax true m e = SFopp (binary_round prec emax false m e).
Proof.
  unfold binary_round. destruct (shl_align _ _ _) as [mz ez].
  exact (binary_round_aux_negb false (Z.pos mz) ez loc_Exact).
Qed.

Lemma SFopp_involutive (x : spec_float) : SFopp (SFopp x) = x.
Proof. destruct x; cbn [SFopp]; now rewrite ?negb_involutive. Qed.

Lemma binary_normalize_opp z e :
  binary_normalize prec emax (- z) e false
  = binary_normalize prec emax z e false
  \/ binary_normalize prec emax (- z) e false
     = SFopp (binary_normalize prec emax z e false).
Proof.
  destruct z as [|m|m]; cbn [Z.opp binary_normalize].
  - now left.
  - right. apply binary_round_true.
  - right. now rewrite binary_round_true, SFopp_involutive.
Qed.

(** [x - y] and [y - x] are equal or opposite. *)
Lemma SFsub_swap (x y : spec_float) :
  SFsub prec emax x y = SFsub prec emax y x
  \/ SFsub prec emax x y = SFopp (SFsub prec emax y x).
Proof.
  destruct x as [sx|sx| |sx mx ex], y as [sy|sy| |sy my ey];
    cbn [SFsub SFopp]; try (now left); try (now right);
    try (destruct sx, sy; cbn [negb]; (now left) || (now right)).
  rewrite (Z.min_comm ey ex).
  set (a := cond_Zopp sx (Z.pos (fst (shl_align mx ex (Z.min ex ey))))).
  set (b := cond_Zopp sy (Z.pos (fst (shl_align my ey (Z.min ex ey))))).
  replace (a - b)%Z with (- (b - a))%Z by ring.
  apply binary_normalize_opp.
Qed.

Lemma SFdiv_opp (x y : spec_float) :
  SFdiv prec emax (SFopp x) y = SFopp (SFdiv prec emax x y).
Proof.
  destruct x as [sx|sx| |sx mx ex], y as [sy|sy| |sy my ey];
    cbn [SFdiv SFopp]; try reflexivity;
    try (now rewrite <- negb_xorb_l).
  destruct (SFdiv_core_binary _ _ _ _ _ _) as [[mz ez] lz].
  rewrite <- negb_xorb_l. apply binary_round_aux_negb.
Qed.

Lemma SFabs_opp (x : spec_float) : SFabs (SFopp x) = SFabs x.
Proof. now destruct x. Qed.

(** Numbers of the same magnitude have the same square. *)
Lemma SFmul_same_abs (x y : spec_float) :
  SFabs x = SFabs y -> SFmul prec emax x x = SFmul prec emax y y.
Proof.
  destruct x as [sx|sx| |sx mx ex], y as [sy|sy| |sy my ey];
    cbn [SFabs SFmul]; intros H; try discriminate; try reflexivity;
    rewrite !xorb_nilpotent; try reflexivity.
  injection H as -> ->. reflexivity.
Qed.

Lemma SFmul_comm (x y : spec_float) :
  SFmul prec emax x y = SFmul prec emax y x.
Proof.
  destruct x as [sx|sx| |sx mx ex], y as [sy|sy| |sy my ey];
    cbn [SFmul]; try reflexivity; try (now rewrite xorb_comm).
  now rewrite xorb_comm, Pos.mul_comm, Z.add_comm.
Qed.

Lemma sub_swap (x y : float) : x - y = y - x \/ x - y = - (y - x).
Proof.
  destruct (SFsub_swap (Prim2SF x) (Prim2SF y)) as [H|H]; [left | right];
    apply Prim2SF_inj;
    rewrite ?FloatAxioms.opp_spec, !FloatAxioms.sub_spec; exact H.
Qed.

Lemma div_opp (x y : float) : (- x) / y = - (x / y).
Proof.
  apply Prim2SF_inj.
  rewrite FloatAxioms.opp_spec, !FloatAxioms.div_spec, FloatAxioms.opp_spec.
  apply SFdiv_opp.
Qed.

Lemma square_same_abs (x y : float) : abs x = abs y -> square x = square y.
Proof.
  intros H. apply Prim2SF_inj. unfold square.
  rewrite !FloatAxioms.mul_spec. apply SFmul_same_abs.
  now rewrite <- !FloatAxioms.abs_spec, H.
Qed.

Lemma mul_comm (x y : float) : x * y = y * x.
Proof.
  apply Prim2SF_inj. rewrite !FloatAxioms.mul_spec. apply SFmul_comm.
Qed.

End FloatSign.

Lemma half_angle_sine_square rt (x y : float) :
  (forall z, abs (np_sin rt (- z)) = abs (np_sin rt z)) ->
  square (np_sin rt ((x - y) / 2)) = square (np_sin rt ((y - x) / 2)).
Proof.
  intros Hsin. apply FloatSign.square_same_abs.
  destruct (FloatSign.sub_swap x y) as [->| ->]; [reflexivity|].
  rewrite FloatSign.div_opp. apply Hsin.
Qed.

(** X14: the distance is symmetric, bit for bit: the distance computed from
    A to B is the one computed from B to A, on every runtime whose sine takes
    opposite angles to values of the same magnitude (as an odd sine does).
    Nothing is asked of the cosine or the arc tangent. *)
Theorem haversine_symmetric (rt : Runtime) (latA lonA latB lonB : float) :
  (forall z, abs (np_sin rt (- z)) = abs (np_sin rt z)) ->
  haversine_vectorized rt latA lonA [latB] [lonB]
  = haversine_vectorized rt latB lonB [latA] [lonA].
Proof.
  intros Hsin. unfold haversine_vectorized. cbn [map zip3].
  rewrite (half_angle_sine_square rt (radians latB) (radians latA) Hsin).
  rewrite (half_angle_sine_square rt (radians lonB) (radians lonA) Hsin).
  rewrite (FloatSign.mul_comm (np_cos rt (radians latA))).
  reflexivity.
Qed.

Lemma abs_opp (z : float) : abs (- z) = abs z.
Proof.
  apply Prim2SF_inj.
  rewrite !FloatAxioms.abs_spec, FloatAxioms.opp_spec.
  apply FloatSign.SFabs_opp.
Qed.

Lemma haversine_symmetric_witness :
  (forall z, abs (np_sin small_angle_runtime (- z))
             = abs (np_sin small_angle_runtime z))
  /\ haversine_vectorized small_angle_runtime 48.875 2.375 [43.25] [5.375]
     = haversine_vectorized small_angle_runtime 43.25 5.375 [48.875] [2.375].
Proof.
  assert (H : forall z, abs (np_sin small_angle_runtime (- z))
                        = abs (np_sin small_angle_runtime z))
    by exact abs_opp.
  split; [exact H|].
  exact (haversine_symmetric small_angle_runtime 48.875 2.375 43.25 5.375 H).
Defined.

(** X15: the bulk computation is the per-candidate one.  For coordinate
    arrays of one length there is one distance per candidate, in the order of
    the candidates, and each is the distance the function computes for that
    candidate alone: no candidate influences the distance of another. *)
Theorem haversine_is_pointwise (rt : Runtime) (lat lon : float)
  (latitudes longitudes : list float) :
  List.length longitudes = List.length latitudes ->
  List.length (haversine_vectorized rt lat lon latitudes longitudes)
  = List.length latitudes
  /\ haversine_vectorized rt lat lon latitudes longitudes
     = flat_map
         (fun candidate =>
            haversine_vectorized rt lat lon [fst candidate] [snd candidate])
         (combine latitudes longitudes).
Proof.
  intros Hlen. split; [now apply haversine_vectorized_length|].
  clear Hlen. revert longitudes.
  induction latitudes as [|la latitudes IH]; intros [|lo longitudes];
    try reflexivity.
  cbn [combine flat_map fst snd app].
  rewrite <- IH. reflexivity.
Qed.

Lemma haversine_is_pointwise_witness :
  List.length [2.25; 5.375] = List.length [48.75; 43.25]
  /\ haversine_vectorized example_runtime 48.875 2.375
       [48.75; 43.25] [2.25; 5.375]
     = haversine_vectorized example_runtime 48.875 2.375 [48.75] [2.25]
       ++ haversine_vectorized example_runtime 48.875 2.375 [43.25] [5.375].
Proof.
  assert (H : List.length [2.25; 5.375] = List.length [48.75; 43.25])
    by reflexivity.
  split; [exact H|].
  rewrite (proj2 (haversine_is_pointwise example_runtime 48.875 2.375
                    [48.75; 43.25] [2.25; 5.375] H)).
  reflexivity.
Defined.

(** * Loading the dataset *)

Lemma split_on_length sep : forall s,
  List.length (Text.split_on sep s)
  = S (List.length (filter (Ascii.eqb sep) (list_ascii_of_string s))).
Proof.
  induction s as [|c t IH]; [reflexivity|].
  cbn [Text.split_on list_ascii_of_string filter].
  rewrite (Ascii.eqb_sym sep c).
  destruct (Ascii.eqb c sep).
  - cbn [List.length]. now rewrite IH.
  - destruct (Text.split_on sep t) as [|h r]; [discriminate|].
    cbn [List.length] in *. exact IH.
Qed.

(** Joining two texts without a comma by a comma and splitting gives them
    back. *)
Lemma split_on_join sep (a b : string) :
  existsb (Ascii.eqb sep) (list_ascii_of_string a) = false ->
  existsb (Ascii.eqb sep) (list_ascii_of_string b) = false ->
  Text.split_on sep (a ++ String sep b)%string = [a; b].
Proof.
  intros Ha Hb. induction a as [|c a IH]; cbn [String.append Text.split_on].
  - rewrite Ascii.eqb_refl. now rewrite (TextFacts.split_on_no_sep sep b Hb).
  - cbn [list_ascii_of_string existsb] in Ha.
    apply orb_false_iff in Ha as [Hc Ha].
    rewrite Ascii.eqb_sym, Hc, (IH Ha). reflexivity.
Qed.

Lemma width_ge (rows : list (list part)) (row : list part) :
  In row rows -> List.length row <= width rows.
Proof.
  induction rows as [|r rows IH]; [contradiction|].
  cbn [width fold_right]. fold (width rows). intros [<-|H].
  - apply Nat.le_max_l.
  - etransitivity; [now apply IH | apply Nat.le_max_r].
Qed.

Lemma width_attained (rows : list (list part)) :
  rows <> [] -> exists row, In row rows /\ List.length row = width rows.
Proof.
  induction rows as [|r rows IH]; [congruence|]. intros _.
  cbn [width fold_right]. fold (width rows).
  destruct (Nat.max_spec (List.length r) (width rows)) as [[Hlt ->]|[Hle ->]].
  - destruct rows as [|r' rows'].
    + cbn in Hlt. lia.
    + destruct IH as [row [Hin Hrow]]; [discriminate|].
      exists row. split; [now right | exact Hrow].
  - exists r. split; [now left | reflexivity].
Qed.

Lemma width_expand (rows : list (list part)) :
  width (expand rows) = width rows.
Proof.
  unfold expand. set (w := width rows).
  assert (H : forall rs, (forall r, In r rs -> List.length r <= w) ->
              width (map (fun row => row ++ repeat None (w - List.length row))
                       rs)
              = match rs with [] => 0%nat | _ => w end).
  { induction rs as [|r rs IH]; intros Hle; [reflexivity|].
    cbn [map width fold_right].
    change (fold_right _ 0%nat (map ?f rs)) with (width (map f rs)).
    rewrite IH by (intros r' Hr'; apply Hle; now right).
    rewrite length_app, repeat_length.
    pose proof (Hle r ltac:(now left)). destruct rs; lia. }
  rewrite H by (intros r Hr; now apply width_ge).
  destruct rows; reflexivity.
Qed.

Lemma Forall2_weaken_In {A B} (P Q : A -> B -> Prop) (l1 : list A)
  (l2 : list B) :
  (forall a b, In a l1 -> In b l2 -> P a b -> Q a b) ->
  Forall2 P l1 l2 -> Forall2 Q l1 l2.
Proof.
  intros H F. induction F as [|a b l1 l2 Hab F IH]; constructor.
  - apply H; [now left | now left | exact Hab].
  - apply IH. intros a' b' Ha Hb. apply H; now right.
Qed.

Section LoadingFacts.

Variable float_of_text : string -> option float.

Lemma frame_astype_float_rows {A} (g : A -> list part) : forall xs values,
  frame_astype_float float_of_text (map g xs) = Some values ->
  Forall2 (fun x v => row_astype_float float_of_text (g x) = Some v)
    xs values.
Proof.
  induction xs as [|x xs IH]; cbn [map frame_astype_float]; intros values H.
  - injection H as <-. constructor.
  - destruct (row_astype_float float_of_text (g x)) as [v|] eqn:E;
      [|discriminate].
    destruct (frame_astype_float float_of_text (map g xs)) as [vs|];
      [|discriminate].
    injection H as <-. constructor; [exact E | now apply IH].
Qed.

Lemma assign_coordinates_loaded : forall df values,
  Forall2 (fun r v =>
             List.length (two_parts (equip_coordonnees r)) = 2%nat
             /\ row_astype_float float_of_text
                  (two_parts (equip_coordonnees r)) = Some v)
    df values ->
  Forall2 (loaded float_of_text) df (assign_coordinates df values).
Proof.
  induction 1 as [|r v df values [Hlen Hv] _ IH]; [constructor|].
  destruct (two_parts (equip_coordonnees r)) as [|p [|q [|? ?]]] eqn:E;
    try discriminate.
  cbn [row_astype_float] in Hv.
  destruct (part_astype_float float_of_text p) as [x|] eqn:Ep;
    [|discriminate].
  destruct (part_astype_float float_of_text q) as [y|] eqn:Eq;
    [|discriminate].
  injection Hv as <-. cbn [assign_coordinates].
  constructor; [|exact IH].
  split; [repeat split|]. exists p, q. rewrite E. now repeat split.
Qed.

(** What a successful load is made of. *)
Lemma load_data_inr (df : list SheetRow) (out : DataFrame) :
  load_data float_of_text df = inr out ->
  width (map (fun r => str_split "," (equip_coordonnees r)) df) = 2%nat
  /\ Forall2 (loaded float_of_text) df out.
Proof.
  unfold load_data.
  set (rows := map (fun r => str_split "," (equip_coordonnees r)) df).
  destruct (frame_astype_float float_of_text (expand rows)) as [values|] eqn:E;
    [|discriminate].
  rewrite width_expand.
  destruct (Nat.eqb_spec (width rows) 2) as [Hw|]; [|discriminate].
  intros H. injection H as <-. split; [exact Hw|].
  apply assign_coordinates_loaded.
  unfold expand in E. rewrite Hw in E. unfold rows in E.
  rewrite map_map in E. apply frame_astype_float_rows in E.
  eapply Forall2_weaken_In; [|exact E].
  intros r v Hr _ Hv. split; [|exact Hv].
  unfold two_parts. rewrite length_app, repeat_length.
  assert (List.length (str_split "," (equip_coordonnees r)) <= 2).
  { rewrite <- Hw. apply width_ge. unfold rows.
    now apply (in_map (fun r => str_split "," (equip_coordonnees r))). }
  lia.
Qed.

Lemma commas_zero (s : string) :
  commas s = 0%nat ->
  existsb (Ascii.eqb ",") (list_ascii_of_string s) = false.
Proof.
  unfold commas. induction (list_ascii_of_string s) as [|c l IH];
    cbn [filter existsb]; [reflexivity|].
  destruct (Ascii.eqb "," c); [discriminate | exact IH].
Qed.

Lemma commas_split (s : string) :
  List.length (str_split "," (Text s)) = S (commas s).
Proof.
  unfold str_split, commas. rewrite length_map. apply split_on_length.
Qed.

Lemma width_all (rows : list (list part)) (n : nat) :
  rows <> [] -> Forall (fun row => List.length row = n) rows ->
  width rows = n.
Proof.
  intros Hne Hall. destruct (width_attained rows Hne) as [row [Hin <-]].
  rewrite Forall_forall in Hall. now apply Hall.
Qed.

Lemma frame_astype_float_total : forall rows,
  Forall (fun row => exists v, row_astype_float float_of_text row = Some v)
    rows ->
  exists values, frame_astype_float float_of_text rows = Some values.
Proof.
  induction 1 as [|row rows [v Hv] _ [values IH]]; cbn [frame_astype_float].
  - now exists [].
  - rewrite Hv, IH. now eexists.
Qed.

(** X16: a well-formed coordinates column loads.  If the spreadsheet has
    rows and every coordinates cell is two texts without a comma, joined by
    one comma, that [float] accepts, then [load_data] returns every row, in
    order, with its other columns unchanged, the latitude converted from the
    text before the comma and the longitude from the text after it. *)
Theorem load_data_splits_coordinates (df : list SheetRow) :
  df <> [] ->
  Forall (fun r =>
            exists a b x y,
              equip_coordonnees r = Text (a ++ String "," b)%string
              /\ commas a = 0%nat /\ commas b = 0%nat
              /\ float_of_text a = Some x /\ float_of_text b = Some y) df ->
  exists out,
    load_data float_of_text df = inr out
    /\ Forall2
         (fun r row =>
            same_columns r row
            /\ forall a b,
                 equip_coordonnees r = Text (a ++ String "," b)%string ->
                 commas a = 0%nat -> commas b = 0%nat ->
                 float_of_text a = Some (latitude row)
                 /\ float_of_text b = Some (longitude row))
         df out.
Proof.
  intros Hne Hall.
  assert (Hsplit : forall r a b,
            equip_coordonnees r = Text (a ++ String "," b)%string ->
            commas a = 0%nat -> commas b = 0%nat ->
            str_split "," (equip_coordonnees r) = [Some a; Some b]).
  { intros r a b -> Ha Hb. unfold str_split.
    now rewrite (split_on_join "," a b (commas_zero a Ha) (commas_zero b Hb)). }
  set (rows := map (fun r => str_split "," (equip_coordonnees r)) df).
  assert (Hw : width rows = 2%nat).
  { apply width_all.
    - unfold rows. destruct df; [congruence | discriminate].
    - unfold rows. rewrite Forall_map. eapply Forall_impl; [|exact Hall].
      intros r [a [b [x [y [E [Ha [Hb _]]]]]]].
      now rewrite (Hsplit r a b E Ha Hb). }
  assert (Hok : exists out, load_data float_of_text df = inr out).
  { unfold load_data. fold rows.
    destruct (frame_astype_float_total (expand rows)) as [values ->].
    - unfold expand. rewrite Hw. unfold rows. rewrite map_map, Forall_map.
      eapply Forall_impl; [|exact Hall].
      intros r [a [b [x [y [E [Ha [Hb [Hx Hy]]]]]]]].
      rewrite (Hsplit r a b E Ha Hb). cbn. rewrite Hx, Hy. now eexists.
    - rewrite width_expand, Hw. cbn. now eexists. }
  destruct Hok as [out Hout]. exists out. split; [exact Hout|].
  destruct (load_data_inr df out Hout) as [_ Hloaded].
  eapply Forall2_weaken_In; [|exact Hloaded].
  intros r row _ _ [Hsame [p [q [E [Hp Hq]]]]]. split; [exact Hsame|].
  intros a b Ecell Ha Hb. unfold two_parts in E.
  rewrite (Hsplit r a b Ecell Ha Hb) in E. cbn in E.
  injection E as <- <-. now split.
Qed.

(** X17: a load never drops or reorders a row.  When [load_data] returns,
    it returns as many rows as the spreadsheet has, in the same order and
    with the same other columns; a row whose coordinates cell is missing
    gets NaN for both coordinates, and a row whose cell has no comma gets
    its text as latitude and NaN as longitude. *)
Theorem load_data_keeps_every_row (df : list SheetRow) :
  match load_data float_of_text df with
  | inr out =>
      List.length out = List.length df
      /\ Forall2
           (fun r row =>
              same_columns r row
              /\ (equip_coordonnees r = NA ->
                  latitude row = nan /\ longitude row = nan)
              /\ (forall s,
                    equip_coordonnees r = Text s -> commas s = 0%nat ->
                    float_of_text s = Some (latitude row)
                    /\ longitude row = nan))
           df out
  | inl _ => True
  end.
Proof.
  destruct (load_data float_of_text df) as [|out] eqn:E; [exact I|].
  destruct (load_data_inr df out E) as [_ Hloaded]. split.
  - symmetry. exact (Forall2_length Hloaded).
  - eapply Forall2_weaken_In; [|exact Hloaded].
    intros r row _ _ [Hsame [p [q [Eparts [Hp Hq]]]]].
    split; [exact Hsame|]. split.
    + intros Hna. unfold two_parts in Eparts. rewrite Hna in Eparts.
      cbn in Eparts. injection Eparts as <- <-. cbn in Hp, Hq.
      injection Hp as <-. injection Hq as <-. now split.
    + intros s Hs Hc. unfold two_parts in Eparts. rewrite Hs in Eparts.
      unfold str_split in Eparts.
      rewrite (TextFacts.split_on_no_sep "," s (commas_zero s Hc)) in Eparts.
      cbn in Eparts. injection Eparts as <- <-. cbn in Hp, Hq.
      injection Hq as <-. now split.
Qed.

(** X18: a load needs exactly two columns.  [load_data] raises when a
    coordinates cell has more than one comma, whatever the other rows, and
    when no cell has a comma at all, as in a spreadsheet without rows. *)
Theorem load_data_needs_two_columns (df : list SheetRow) :
  (exists r s,
     In r df /\ equip_coordonnees r = Text s /\ 2 <= commas s)
  \/ (forall r s,
        In r df -> equip_coordonnees r = Text s -> commas s = 0%nat) ->
  exists e, load_data float_of_text df = inl e.
Proof.
  intros H. destruct (load_data float_of_text df) as [e|out] eqn:E;
    [now exists e|]. exfalso.
  destruct (load_data_inr df out E) as [Hw _].
  set (rows := map (fun r => str_split "," (equip_coordonnees r)) df) in Hw.
  destruct H as [[r [s [Hin [Hs Hc]]]]|Hnone].
  - assert (Hle : List.length (str_split "," (equip_coordonnees r)) <= 2).
    { rewrite <- Hw. apply width_ge. unfold rows.
      now apply (in_map (fun r => str_split "," (equip_coordonnees r))). }
    rewrite Hs, commas_split in Hle. lia.
  - destruct (width_attained rows) as [row [Hin Hrow]].
    { intros Hnil. rewrite Hnil in Hw. discriminate. }
    unfold rows in Hin. apply in_map_iff in Hin as [r [<- Hin]].
    rewrite Hw in Hrow.
    destruct (equip_coordonnees r) as [|s] eqn:Ecell; [discriminate|].
    rewrite commas_split, (Hnone r s Hin Ecell) in Hrow. discriminate.
Qed.

End LoadingFacts.

Lemma load_data_splits_coordinates_witness :
  example_sheet <> []
  /\ Forall (fun r =>
               exists a b x y,
                 equip_coordonnees r = Text (a ++ String "," b)%string
                 /\ commas a = 0%nat /\ commas b = 0%nat
                 /\ example_float_of_text a = Some x
                 /\ example_float_of_text b = Some y) example_sheet
  /\ exists out,
       load_data example_float_of_text example_sheet = inr out
       /\ map latitude out = [48.875; 48.75]
       /\ map longitude out = [2.375; 2.25].
Proof.
  assert (H1 : example_sheet <> []) by discriminate.
  assert (H2 : Forall (fun r =>
                 exists a b x y,
                   equip_coordonnees r = Text (a ++ String "," b)%string
                   /\ commas a = 0%nat /\ commas b = 0%nat
                   /\ example_float_of_text a = Some x
                   /\ example_float_of_text b = Some y) example_sheet).
  { repeat constructor.
    - exists "48.875"%string, "2.375"%string, 48.875, 2.375.
      repeat split.
    - exists "48.75"%string, "2.25"%string, 48.75, 2.25. repeat split. }
  split; [exact H1|]. split; [exact H2|].
  destruct (load_data_splits_coordinates example_float_of_text example_sheet
              H1 H2) as [out [E _]].
  exists out. split; [exact E|].
  vm_compute in E. injection E as <-. split; reflexivity.
Defined.

Lemma load_data_needs_two_columns_witness :
  ((exists r s,
      In r (@nil SheetRow) /\ equip_coordonnees r = Text s /\ 2 <= commas s)
   \/ (forall r s,
         In r (@nil SheetRow) -> equip_coordonnees r = Text s ->
         commas s = 0%nat))
  /\ exists e, load_data example_float_of_text [] = inl e.
Proof.
  assert (H : (exists r s,
                 In r (@nil SheetRow) /\ equip_coordonnees r = Text s
                 /\ 2 <= commas s)
              \/ (forall r s,
                    In r (@nil SheetRow) -> equip_coordonnees r = Text s ->
                    commas s = 0%nat)).
  { right. intros r s Hin. contradiction. }
  split; [exact H|].
  exact (load_data_needs_two_columns example_float_of_text [] H).
Defined.

(** * Geocoding *)

(** X19.  A GeoJSON answer is read as (latitude, longitude): when the
    service answers with a status that is no error and an object whose
    "features" start with an object whose "geometry" has the "coordinates"
    [lon, lat, ...], [geocode_address] returns [(lat, lon)], the second
    coordinate first. *)
Theorem geocode_address_reads_point (requests_get : request -> reply)
  (address : utext) (status_code : nat) (data : list (utext * pyval))
  (feature : pyval) (others : list pyval) (geometry lon lat : pyval)
  (more : list pyval) :
  requests_get (geocode_request address)
  = Reply status_code (Some (PyDict data)) ->
  raise_for_status status_code = false ->
  dict_lookup (u "features") data = Some (PyList (feature :: others)) ->
  py_member feature (u "geometry") = Some geometry ->
  py_member geometry (u "coordinates") = Some (PyList (lon :: lat :: more)) ->
  geocode_address requests_get address = (lat, lon).
Proof.
  intros Hreply Hstatus Hfeatures Hgeometry Hcoordinates.
  unfold geocode_address, geocode_try.
  rewrite Hreply, Hstatus. cbn [py_get]. rewrite Hfeatures.
  cbn [truthy empty negb py_item nth_error].
  rewrite Hgeometry, Hcoordinates. reflexivity.
Qed.


(** * The page *)

(** The flag a session holds; a session without the key reads as unset. *)
Lemma page_flag rt requests_get stadiums session w :
  snd (page rt requests_get stadiums session w)
  = (match session with Some flag => flag | None => false end
     || Sidebar.search_btn w)
    && negb (empty (Sidebar.address_input w)).
Proof.
  unfold page.
  set (before := match session with Some flag => flag | None => false end).
  destruct (Sidebar.search_btn w), before; cbn [orb];
    try reflexivity;
    (destruct (empty (Sidebar.address_input w)); [reflexivity|];
     destruct (geocode_address requests_get (Sidebar.address_input w))
       as [lat lon];
     destruct (is_None lat); [reflexivity|];
     destruct (filtered _ _ _ _ _ _ _) as [df_filtered|e]; [|reflexivity];
     destruct (empty df_filtered); [reflexivity|];
     destruct (as_float lat); [reflexivity|];
     destruct (as_float lon); [reflexivity|];
     destruct (results _ _ _ _ _ _) as [rows|]; [|reflexivity];
     destruct (empty rows); reflexivity).
Qed.

Lemma session_after_app rt stadiums session runs later :
  session_after rt stadiums session (runs ++ later)
  = session_after rt stadiums (session_after rt stadiums session runs) later.
Proof.
  revert session. induction runs as [|r runs IH]; intros session.
  - reflexivity.
  - cbn [app session_after]. apply IH.
Qed.

(** The flag stays set while every run has an address. *)
Lemma session_after_stays rt stadiums runs :
  Forall (fun r => empty (Sidebar.address_input (widgets r)) = false) runs ->
  session_after rt stadiums (Some true) runs = Some true.
Proof.
  induction 1 as [|r runs Hr _ IH]; [reflexivity|].
  cbn [session_after]. rewrite page_flag, Hr. exact IH.
Qed.

(** X21.  The search stays on until the address is cleared: after the runs
    of a new session the flag [search_performed] is set exactly when the
    button was pressed in some run and the address was non-empty in that run
    and in every run after it.  So a run with the flag set searches again
    without the button, and after a run with an empty address the button is
    needed anew. *)
Theorem search_stays_on_until_address_cleared (rt : Runtime)
  (stadiums : DataFrame) (runs : list Run) :
  session_after rt stadiums None runs = Some true
  <-> exists before r after,
        runs = before ++ r :: after
        /\ Sidebar.search_btn (widgets r) = true
        /\ Forall
             (fun r => empty (Sidebar.address_input (widgets r)) = false)
             (r :: after).
Proof.
  split.
  - induction runs as [|r runs IH] using rev_ind; [discriminate|].
    rewrite session_after_app. cbn [session_after].
    intros Hset. injection Hset as Hset. rewrite page_flag in Hset.
    apply andb_prop in Hset as [Hflag Haddress].
    apply negb_true_iff in Haddress.
    destruct (Sidebar.search_btn (widgets r)) eqn:Hbtn.
    + exists runs, r, []. repeat split; try assumption.
      now repeat constructor.
    + rewrite orb_false_r in Hflag.
      destruct (session_after rt stadiums None runs) as [flag|] eqn:Hbefore;
        [|discriminate].
      subst flag.
      destruct (IH eq_refl) as [before [r0 [after [-> [Hr0 Hall]]]]].
      exists before, r0, (after ++ [r]).
      split; [now rewrite <- app_assoc|]. split; [exact Hr0|].
      change (r0 :: after ++ [r]) with ((r0 :: after) ++ [r]).
      apply Forall_app. split; [exact Hall|]. now repeat constructor.
  - intros [before [r [after [-> [Hbtn Hall]]]]].
    rewrite session_after_app. cbn [session_after].
    rewrite page_flag, Hbtn, orb_true_r.
    inversion Hall as [|? ? Hr Hafter]; subst.
    rewrite Hr. cbn [negb andb].
    now apply session_after_stays.
Qed.

(** X22.  The page searches at the geocoded point: in a run that searches
    (button pressed or flag set, address given) where [geocode_address]
    returns two floats [(lat, lon)], the page shows what [search] gives at
    latitude [lat] and longitude [lon] for the choices of the sidebar, the
    surfaces as the text "No preference" when none is picked and as the
    picked list otherwise, the radius as a float. *)
Theorem page_searches_at_geocoded_point (rt : Runtime)
  (requests_get : request -> reply) (stadiums : DataFrame)
  (session : option bool) (w : Sidebar.Widgets) (lat lon : float) :
  Sidebar.search_btn w = true \/ session = Some true ->
  empty (Sidebar.address_input w) = false ->
  geocode_address requests_get (Sidebar.address_input w)
  = (PyFloat lat, PyFloat lon) ->
  fst (page rt requests_get stadiums session w)
  = match search rt stadiums lat lon (Sidebar.transport_choice w)
            (Sidebar.type_choice w) (Sidebar.nature_choice w)
            (if empty (Sidebar.picked_surfaces w)
             then SurfaceStr no_preference
             else SurfaceList (Sidebar.picked_surfaces w))
            (Sidebar.activity_choice w)
            (float_of_Z (Sidebar.radius w)) (Sidebar.max_res w) with
    | inl f => inl (SearchFailed f)
    | inr o => inr (Searched o)
    end.
Proof.
  intros Hon Haddress Hgeocode.
  unfold page, search. fold (Sidebar.surface_choice w).
  assert (Hflag :
            (if Sidebar.search_btn w then true
             else match session with Some flag => flag | None => false end)
            = true).
  { destruct Hon as [-> | ->]; [reflexivity|].
    now destruct (Sidebar.search_btn w). }
  rewrite Hflag, Haddress, Hgeocode. cbn [is_None as_float].
  destruct (filtered _ _ _ _ _ _ _) as [df_filtered|e]; [|reflexivity].
  destruct (empty df_filtered); [reflexivity|].
  destruct (results _ _ _ _ _ _) as [rows|]; [|reflexivity].
  now destruct (empty rows).
Qed.

Lemma geocode_address_reads_point_witness :
  example_service (geocode_request (u "Stade Nord"))
  = point_reply (PyFloat 2.375) (PyFloat 48.875)
  /\ raise_for_status 200 = false
  /\ geocode_address example_service (u "Stade Nord")
     = (PyFloat 48.875, PyFloat 2.375).
Proof.
  split; [reflexivity|]. split; [reflexivity|].
  eapply (geocode_address_reads_point example_service (u "Stade Nord") 200);
    reflexivity.
Defined.


Lemma page_searches_at_geocoded_point_witness :
  (Sidebar.search_btn example_widgets = true \/ @None bool = Some true)
  /\ empty (Sidebar.address_input example_widgets) = false
  /\ geocode_address example_service (Sidebar.address_input example_widgets)
     = (PyFloat 48.875, PyFloat 2.375)
  /\ fst (page example_runtime example_service example_stadiums None
            example_widgets)
     = match search example_runtime example_stadiums 48.875 2.375
               no_preference no_preference no_preference
               (SurfaceStr no_preference) no_preference
               (float_of_Z 20) 5 with
       | inl f => inl (SearchFailed f)
       | inr o => inr (Searched o)
       end.
Proof.
  assert (H1 : Sidebar.search_btn example_widgets = true
               \/ @None bool = Some true) by (left; reflexivity).
  assert (H2 : empty (Sidebar.address_input example_widgets) = false)
    by reflexivity.
  assert (H3 : geocode_address example_service
                 (Sidebar.address_input example_widgets)
               = (PyFloat 48.875, PyFloat 2.375)) by reflexivity.
  split; [exact H1|]. split; [exact H2|]. split; [exact H3|].
  exact (page_searches_at_geocoded_point example_runtime example_service
           example_stadiums None example_widgets 48.875 2.375 H1 H2 H3).
Defined.

(** A transport mode of the sidebar never makes the filters raise. *)
Lemma filtered_list_trans rt df t e n s a :
  In t list_trans -> exists out, filtered rt df t e n s a = Ok out.
Proof.
  intros Hin. rewrite filtered_selection. unfold selection, transport_pred.
  destruct (String.eqb t no_preference) eqn:Ht; [eauto|].
  apply String.eqb_neq in Ht.
  destruct (list_trans_literal t Hin Ht) as [Hlit _].
  unfold re_compile. rewrite (ReFacts.literal_not_beyond _ Hlit). eauto.
Qed.

(** X23.  Up to the notice it shows, the only exception of the page is the
    conversion of the coordinates: with a sort that meets its contract and a
    transport mode of the sidebar's list, a run raises before its notice
    exactly when it searches (button pressed or flag set, address given),
    [geocode_address] returns a latitude that is not [None], some stadium
    passes the filters, and the latitude or the longitude is no number
    ([None], a text, a list, an object, or an integer too large for a
    float).  The test on the answer looks at the latitude only, and the
    conversion comes after the test on the empty selection. *)
Theorem page_raises_only_on_coordinates (rt : Runtime)
  (requests_get : request -> reply) (stadiums : DataFrame)
  (session : option bool) (w : Sidebar.Widgets) :
  sorts (argsort_quicksort rt) ->
  In (Sidebar.transport_choice w) list_trans ->
  (exists f, fst (page rt requests_get stadiums session w) = inl f)
  <-> (Sidebar.search_btn w = true \/ session = Some true)
      /\ empty (Sidebar.address_input w) = false
      /\ exists lat lon df_filtered,
           geocode_address requests_get (Sidebar.address_input w)
           = (lat, lon)
           /\ is_None lat = false
           /\ filtered rt stadiums (Sidebar.transport_choice w)
                (Sidebar.type_choice w) (Sidebar.nature_choice w)
                (Sidebar.surface_choice w) (Sidebar.activity_choice w)
              = Ok df_filtered
           /\ empty df_filtered = false
           /\ exists e, as_float lat = inl e \/ as_float lon = inl e.
Proof.
  intros Hsorts Htransport.
  destruct (filtered_list_trans rt stadiums _ (Sidebar.type_choice w)
              (Sidebar.nature_choice w) (Sidebar.surface_choice w)
              (Sidebar.activity_choice w) Htransport) as [df Hdf].
  unfold page. rewrite Hdf.
  set (flag := if Sidebar.search_btn w then true
               else match session with Some flag => flag | None => false end).
  assert (Hflag : flag = true
                  <-> Sidebar.search_btn w = true \/ session = Some true).
  { unfold flag. destruct (Sidebar.search_btn w).
    - split; [now left | reflexivity].
    - destruct session as [[|]|]; split; intros H; try discriminate;
        try (now right); try reflexivity;
        destruct H as [H|H]; discriminate. }
  destruct flag.
  2:{ split; [intros [f Hf]; discriminate|].
      intros [Hon _]. apply Hflag in Hon. discriminate. }
  destruct (empty (Sidebar.address_input w)) eqn:Haddress.
  { split; [intros [f Hf]; discriminate|].
    intros [_ [H _]]. discriminate. }
  destruct (geocode_address requests_get (Sidebar.address_input w))
    as [lat lon].
  destruct (is_None lat) eqn:Hlat.
  { split; [intros [f Hf]; discriminate|].
    intros [_ [_ [lat' [lon' [df' [E [H _]]]]]]].
    injection E as <- <-. rewrite Hlat in H. discriminate. }
  destruct (empty df) eqn:Hempty.
  { split; [intros [f Hf]; discriminate|].
    intros [_ [_ [lat' [lon' [df' [_ [_ [E [H _]]]]]]]]].
    injection E as <-. rewrite Hempty in H. discriminate. }
  destruct (as_float lat) as [e|x] eqn:Hx.
  { split; [|intros _; eexists; reflexivity].
    intros _. split; [now apply Hflag|]. split; [reflexivity|].
    exists lat, lon, df. repeat split; try assumption.
    exists e. now left. }
  destruct (as_float lon) as [e|y] eqn:Hy.
  { split; [|intros _; eexists; reflexivity].
    intros _. split; [now apply Hflag|]. split; [reflexivity|].
    exists lat, lon, df. repeat split; try assumption.
    exists e. now right. }
  split.
  - destruct (results_run rt x y df (float_of_Z (Sidebar.radius w))
                (Sidebar.max_res w) Hsorts) as [sorted [-> _]].
    intros [f Hf]. destruct (empty (head (Sidebar.max_res w) sorted));
      discriminate.
  - intros [_ [_ [lat' [lon' [df' [E [_ [_ [_ [e [H|H]]]]]]]]]]];
      injection E as <- <-; congruence.
Qed.

Lemma page_raises_only_on_coordinates_witness :
  sorts (argsort_quicksort example_runtime)
  /\ In (Sidebar.transport_choice example_widgets) list_trans
  /\ exists f,
       fst (page example_runtime service_without_longitude example_stadiums
              None example_widgets)
       = inl f.
Proof.
  assert (H1 : sorts (argsort_quicksort example_runtime))
    by exact argsort_stable_sorts.
  assert (H2 : In (Sidebar.transport_choice example_widgets) list_trans)
    by (left; reflexivity).
  split; [exact H1|]. split; [exact H2|].
  apply (proj2 (page_raises_only_on_coordinates example_runtime
                  service_without_longitude example_stadiums None
                  example_widgets H1 H2)).
  split; [left; reflexivity|]. split; [reflexivity|].
  exists (PyFloat 48.875), PyNone, example_stadiums.
  repeat split. exists TypeError. now right.
Defined.
